(** * The season simulator of fpl-ai-dev: [simulation/simulator.py]

    A shallow embedding of [Simulator.update], the per-gameweek transition
    of the season state, of the [selling_prices] property and of
    [print_gameweek_summary], followed by the properties the specification
    states about them.

    Python integers are [Z]; dictionaries keyed by player identifiers are
    [gmap Z _]; squads are [gset Z]; data frames are lists of rows.  A
    method that mutates [self] and may raise is a computation in a small
    state-and-exception monad: the state it leaves behind is observable
    whether it returns or raises, as it is for the Python object. *)

From stdpp Require Import gmap strings list pretty sorting.
From Stdlib Require Import ZArith Lia.

Open Scope Z_scope.

(** ** Exceptions and results *)

Inductive exn : Type :=
  | DataUnavailable (season : string) (gameweek : Z)
  | KeyError (key : option Z)
  | TypeError.

Inductive result (A : Type) : Type :=
  | Ok (a : A)
  | Raise (e : exn).
Arguments Ok {A} a.
Arguments Raise {A} e.

Global Instance result_ret : MRet result := λ A a, Ok a.
Global Instance result_bind : MBind result := λ A B f r,
  match r with
  | Ok a => f a
  | Raise e => Raise e
  end.

Definition is_ok {A} (r : result A) : bool :=
  match r with Ok _ => true | Raise _ => false end.

(** [d[k]] on a plain dictionary: [KeyError] when the key is absent. *)
Definition getitem {V} (d : gmap Z V) (k : Z) : result V :=
  match d !! k with
  | Some v => Ok v
  | None => Raise (KeyError (Some k))
  end.

(** [d[k]] on a [defaultdict(lambda: 0, d)]. *)
Definition defaultdict (d : gmap Z Z) (k : Z) : Z := default 0 (d !! k).

(** ** Data model *)

(** A row of the static-elements frame (the market snapshot of a round). *)
Record Element : Type := {
  el_id : Z;
  el_element_type : Z;
  el_now_cost : Z;
  el_web_name : string;
}.

(** A row of the results frame. *)
Record ResultRow : Type := {
  res_round : Z;
  res_element : Z;
  res_minutes : Z;
  res_total_points : Z;
}.

(** The [roles] dictionary.  After automatic substitution the captain may
    be [None]. *)
Record Roles : Type := {
  starting_xi : list Z;
  reserve_gkp : Z;
  reserve_out_1 : Z;
  reserve_out_2 : Z;
  reserve_out_3 : Z;
  captain : option Z;
  vice_captain : option Z;
}.

(** The attributes of a [Simulator] object that [update] reads or writes. *)
Record Simulator : Type := {
  season : string;
  first_gameweek : Z;
  last_gameweek : Z;
  next_gameweek : Z;
  season_points : Z;
  results : list ResultRow;
  squad : gset Z;
  budget : Z;
  purchase_prices : gmap Z Z;
  free_transfers : Z;
}.

Definition set_season_points (v : Z) (s : Simulator) : Simulator :=
  {| season := season s; first_gameweek := first_gameweek s;
     last_gameweek := last_gameweek s; next_gameweek := next_gameweek s;
     season_points := v; results := results s; squad := squad s;
     budget := budget s; purchase_prices := purchase_prices s;
     free_transfers := free_transfers s |}.

Definition set_squad (v : gset Z) (s : Simulator) : Simulator :=
  {| season := season s; first_gameweek := first_gameweek s;
     last_gameweek := last_gameweek s; next_gameweek := next_gameweek s;
     season_points := season_points s; results := results s; squad := v;
     budget := budget s; purchase_prices := purchase_prices s;
     free_transfers := free_transfers s |}.

Definition set_budget (v : Z) (s : Simulator) : Simulator :=
  {| season := season s; first_gameweek := first_gameweek s;
     last_gameweek := last_gameweek s; next_gameweek := next_gameweek s;
     season_points := season_points s; results := results s; squad := squad s;
     budget := v; purchase_prices := purchase_prices s;
     free_transfers := free_transfers s |}.

Definition set_purchase_prices (v : gmap Z Z) (s : Simulator) : Simulator :=
  {| season := season s; first_gameweek := first_gameweek s;
     last_gameweek := last_gameweek s; next_gameweek := next_gameweek s;
     season_points := season_points s; results := results s; squad := squad s;
     budget := budget s; purchase_prices := v;
     free_transfers := free_transfers s |}.

Definition set_free_transfers (v : Z) (s : Simulator) : Simulator :=
  {| season := season s; first_gameweek := first_gameweek s;
     last_gameweek := last_gameweek s; next_gameweek := next_gameweek s;
     season_points := season_points s; results := results s; squad := squad s;
     budget := budget s; purchase_prices := purchase_prices s;
     free_transfers := v |}.

Definition set_last_gameweek (v : Z) (s : Simulator) : Simulator :=
  {| season := season s; first_gameweek := first_gameweek s;
     last_gameweek := v; next_gameweek := next_gameweek s;
     season_points := season_points s; results := results s; squad := squad s;
     budget := budget s; purchase_prices := purchase_prices s;
     free_transfers := free_transfers s |}.

Definition set_next_gameweek (v : Z) (s : Simulator) : Simulator :=
  {| season := season s; first_gameweek := first_gameweek s;
     last_gameweek := last_gameweek s; next_gameweek := v;
     season_points := season_points s; results := results s; squad := squad s;
     budget := budget s; purchase_prices := purchase_prices s;
     free_transfers := free_transfers s |}.

(** ** The monad of methods on [self] *)

Definition M (A : Type) : Type := Simulator → result A * Simulator.

Global Instance M_ret : MRet M := λ A a self, (Ok a, self).
Global Instance M_bind : MBind M := λ A B f m self,
  match m self with
  | (Ok a, self') => f a self'
  | (Raise e, self') => (Raise e, self')
  end.

Definition get_self : M Simulator := λ self, (Ok self, self).
Definition modify (f : Simulator → Simulator) : M unit := λ self, (Ok tt, f self).
Definition lift {A} (r : result A) : M A := λ self, (r, self).

(** ** Collaborators that are not part of [simulation/simulator.py] *)

(** Modelled from the spec: [datautil.utils.get_mapper] is not among the
    sources; the spec speaks of a mapping from player id to a column of
    the frame.  Built as Python builds a dictionary from pairs: a later
    row with the same key wins. *)
Definition get_mapper {R V} (df : list R) (key : R → Z) (value : R → V) : gmap Z V :=
  foldl (λ d r, <[key r := value r]> d) ∅ df.

(** [game.rules]: the position codes and the table of their names. *)
Class Rules : Type := {
  GKP : Z;
  DEF : Z;
  MID : Z;
  FWD : Z;
  MNG : Z;
  ELEMENT_TYPES : gmap Z string;
}.

(** [datautil.load.fplcache]: the market snapshot of a season and round,
    or the exception raised when there is none. *)
Class FplCache : Type := {
  load_static_elements : string → Z → result (list Element);
}.

(** [simulation.utils]: the helpers [update] calls.  Each is a function of
    its arguments that returns or raises. *)
Class Utils : Type := {
  calculate_budget : gset Z → gset Z → Z → gmap Z Z → gmap Z Z → result Z;
  calculate_points : Roles → (Z → Z) → result Z;
  calculate_team_value : gset Z → gmap Z Z → Z → result Z;
  calculate_transfer_cost : Z → Z → Z → list Z → result Z;
  count_transfers : gset Z → gset Z → result Z;
  get_selling_prices : gset Z → gmap Z Z → gmap Z Z → result (gmap Z Z);
  make_automatic_substitutions : Roles → gmap Z Z → gmap Z Z → result Roles;
  update_free_transfers : Z → Z → Z → list Z → result Z;
  update_purchase_prices : gset Z → gmap Z Z → gmap Z Z → result (gmap Z Z);
}.

(** ** [print_gameweek_summary] *)

(** A row of the two tables of the report. *)
Record Row : Type := {
  row_arrow : string;
  row_armband : string;
  row_position : string;
  row_name : string;
  row_points : Z;
}.

(** What the report shows.  The layout of the text ([print_table],
    [format_currency]) is left out: the report is kept as the values it
    prints, in the order in which it looks them up; what a report had
    printed before it raised is not kept. *)
Record Summary : Type := {
  sum_gameweek : Z;
  sum_gameweek_points : Z;
  sum_starting_xi : list Row;
  sum_reserves : list Row;
  sum_transfer_cost : Z;
  sum_free_transfers : Z;
  sum_bought : list (string * Z);
  sum_sold : list (string * Z);
  sum_bank : Z;
  sum_team_value : Z;
}.

Fixpoint insert_by_key (key : Z → Z) (x : Z) (l : list Z) : list Z :=
  match l with
  | [] => [x]
  | y :: l' =>
      if bool_decide (key x ≤ key y) then x :: l else y :: insert_by_key key x l'
  end.

(** [sorted(l, key=d.get)]: a stable sort; [d.get] is [None] on a missing
    key and Python refuses to compare [None], which a sort of two or more
    items does. *)
Definition sorted_by_get (l : list Z) (d : gmap Z Z) : result (list Z) :=
  if bool_decide (2 ≤ length l)%nat && bool_decide (Exists (λ p, d !! p = None) l)
  then Raise TypeError
  else Ok (foldr (insert_by_key (λ p, default 0 (d !! p))) [] l).

Section Simulation.
Context {R : Rules} {D : FplCache} {U : Utils}.

Definition starting_row (selected_roles substituted_roles : Roles)
    (element_types : gmap Z Z) (web_names : gmap Z string)
    (total_points : Z → Z) (player : Z) : result Row :=
  let arrow :=
    if bool_decide (player ∉ starting_xi selected_roles) then "->" else "  " in
  let armband :=
    if bool_decide (Some player = captain substituted_roles) then "(C)"
    else if bool_decide (Some player = vice_captain substituted_roles) then "(V)"
    else "   " in
  element_type ← getitem element_types player;
  position ← getitem ELEMENT_TYPES element_type;
  name ← getitem web_names player;
  mret {| row_arrow := arrow; row_armband := armband; row_position := position;
          row_name := name; row_points := total_points player |}.

Definition reserve_row (selected_roles : Roles)
    (element_types : gmap Z Z) (web_names : gmap Z string)
    (total_points : Z → Z) (player : Z) : result Row :=
  let arrow :=
    if bool_decide (player ∈ starting_xi selected_roles) then "<-" else "  " in
  let armband :=
    if bool_decide (Some player = captain selected_roles) then "(*C)"
    else if bool_decide (Some player = vice_captain selected_roles) then "(*V)"
    else "    " in
  element_type ← getitem element_types player;
  position ← getitem ELEMENT_TYPES element_type;
  name ← getitem web_names player;
  mret {| row_arrow := arrow; row_armband := armband; row_position := position;
          row_name := name; row_points := total_points player |}.

Definition transfer_line (web_names : gmap Z string) (prices : gmap Z Z)
    (player : Z) : result (string * Z) :=
  name ← getitem web_names player;
  price ← getitem prices player;
  mret (name, price).

Definition print_gameweek_summary (gameweek gameweek_points : Z)
    (selected_roles substituted_roles : Roles)
    (initial_squad final_squad : gset Z)
    (final_budget final_team_value transfer_cost free_transfers : Z)
    (element_types : gmap Z Z) (web_names : gmap Z string)
    (total_points : Z → Z) (now_costs selling_prices : gmap Z Z)
    : result Summary :=
  players ← sorted_by_get (starting_xi substituted_roles) element_types;
  starting ← mapM (starting_row selected_roles substituted_roles
                     element_types web_names total_points) players;
  reserves ← mapM (reserve_row selected_roles element_types web_names total_points)
               [reserve_gkp substituted_roles; reserve_out_1 substituted_roles;
                reserve_out_2 substituted_roles; reserve_out_3 substituted_roles];
  bought ← mapM (transfer_line web_names now_costs)
             (elements (final_squad ∖ initial_squad));
  sold ← mapM (transfer_line web_names selling_prices)
           (elements (initial_squad ∖ final_squad));
  mret {| sum_gameweek := gameweek; sum_gameweek_points := gameweek_points;
          sum_starting_xi := starting; sum_reserves := reserves;
          sum_transfer_cost := transfer_cost; sum_free_transfers := free_transfers;
          sum_bought := bought; sum_sold := sold;
          sum_bank := final_budget; sum_team_value := final_team_value |}.

(** ** The properties of [Simulator] that [update] reads *)

(** [_get_static_elements(self.season, self.next_gameweek)]. *)
Definition static_elements : M (list Element) :=
  self ← get_self;
  lift (load_static_elements (season self) (next_gameweek self)).

Definition selling_prices : M (gmap Z Z) :=
  self ← get_self;
  snapshot ← static_elements;
  let now_costs := get_mapper snapshot el_id el_now_cost in
  lift (get_selling_prices (squad self) (purchase_prices self) now_costs).

(** ** [Simulator.update] *)

(** The set display that builds [new_squad]. *)
Definition squad_of_roles (roles : Roles) : gset Z :=
  list_to_set (starting_xi roles) ∪ {[reserve_gkp roles]} ∪ {[reserve_out_1 roles]}
    ∪ {[reserve_out_2 roles]} ∪ {[reserve_out_3 roles]}.

Definition update (roles : Roles) (wildcard_gameweeks : list Z) (log : bool) : M unit :=
  (* Get the results of the gameweek *)
  self ← get_self;
  let gameweek_results :=
    filter (λ r, res_round r = next_gameweek self) (results self) in
  let minutes := get_mapper gameweek_results res_element res_minutes in
  let total_points := get_mapper gameweek_results res_element res_total_points in
  snapshot ← static_elements;
  let element_types := get_mapper snapshot el_id el_element_type in
  snapshot ← static_elements;
  let now_costs := get_mapper snapshot el_id el_now_cost in
  snapshot ← static_elements;
  let web_names := get_mapper snapshot el_id el_web_name in
  (* Calculate points scored by the squad *)
  substituted_roles ← lift (make_automatic_substitutions roles minutes element_types);
  let total_points := defaultdict total_points in
  gameweek_points ← lift (calculate_points substituted_roles total_points);
  (* Update the budget, purchase prices, and free transfers *)
  let new_squad := squad_of_roles roles in
  transfers_made ← lift (count_transfers (squad self) new_squad);
  transfer_cost ← lift (calculate_transfer_cost (free_transfers self) transfers_made
                          (next_gameweek self) wildcard_gameweeks);
  old_selling_prices ← selling_prices;
  new_budget ← lift (calculate_budget (squad self) new_squad (budget self)
                       old_selling_prices now_costs);
  new_purchase_prices ← lift (update_purchase_prices new_squad (purchase_prices self)
                                now_costs);
  new_selling_prices ← lift (get_selling_prices new_squad new_purchase_prices now_costs);
  new_team_value ← lift (calculate_team_value new_squad new_selling_prices new_budget);
  new_free_transfers ← lift (update_free_transfers (free_transfers self) transfers_made
                               (next_gameweek self) wildcard_gameweeks);
  (* Update the overall points tally *)
  modify (λ s, set_season_points (season_points s + (gameweek_points - transfer_cost)) s);;
  (if log then
     self ← get_self;
     old_selling_prices ← selling_prices;
     lift (print_gameweek_summary (next_gameweek self) gameweek_points roles
             substituted_roles (squad self) new_squad new_budget new_team_value
             transfer_cost (free_transfers self) element_types web_names
             total_points now_costs old_selling_prices);;
     mret tt
   else mret tt);;
  (* Update the variables for the next gameweek *)
  modify (set_squad new_squad);;
  modify (set_budget new_budget);;
  modify (set_purchase_prices new_purchase_prices);;
  modify (set_free_transfers new_free_transfers);;
  (* Move to the next gameweek *)
  modify (λ s, set_next_gameweek (next_gameweek s + 1) s);;
  (* Skip cancelled gameweeks. *)
  self ← get_self;
  if bool_decide (season self = "2022-23") && bool_decide (next_gameweek self = 7)
  then modify (set_next_gameweek 8)
  else mret tt.

End Simulation.

(** ** [simulation/utils.py], from the specification

    The helpers are not among the sources.  Each definition of this module
    follows the contract the specification gives for it (sections 4.1 to
    4.4); a dictionary lookup of a missing player raises [KeyError], as a
    Python subscript does. *)
Module SpecUtils.
Section SpecUtils.
Context {R : Rules}.

Definition sum_Z (l : list Z) : Z := foldr Z.add 0 l.

(** Modelled from the spec: [count_transfers] is missing;
    "transfers_made = |old_squad \ new_squad|". *)
Definition count_transfers (old_squad new_squad : gset Z) : result Z :=
  Ok (Z.of_nat (size (old_squad ∖ new_squad))).

(** Modelled from the spec: the exemption test shared by the two helpers
    below is missing; a round is exempt when it "is flagged as a wildcard
    round (in the provided wildcard-round list) or is the season's first
    round". *)
Definition exempt (next_gameweek : Z) (wildcard_gameweeks : list Z) : bool :=
  bool_decide (next_gameweek ∈ wildcard_gameweeks) || bool_decide (next_gameweek = 1).

(** Modelled from the spec: [calculate_transfer_cost] is missing;
    "cost = 4 × max(0, transfers_made − free_transfers) when not exempt,
    else 0". *)
Definition calculate_transfer_cost (free_transfers transfers_made next_gameweek : Z)
    (wildcard_gameweeks : list Z) : result Z :=
  if exempt next_gameweek wildcard_gameweeks then Ok 0
  else Ok (4 * Z.max 0 (transfers_made - free_transfers)).

Definition clamp (x lo hi : Z) : Z := Z.max lo (Z.min hi x).

(** Modelled from the spec: [update_free_transfers] is missing;
    "free_transfers' = clamp(free_transfers − transfers_made + 1, 0, 5)",
    unless the round is exempt, "in which case ... free-transfer count is
    left at its pre-round value". *)
Definition update_free_transfers (free_transfers transfers_made next_gameweek : Z)
    (wildcard_gameweeks : list Z) : result Z :=
  if exempt next_gameweek wildcard_gameweeks then Ok free_transfers
  else Ok (clamp (free_transfers - transfers_made + 1) 0 5).

(** Modelled from the spec: the per-player pricing rule is missing; "if
    market price ≥ purchase price, selling price = market price; if
    market price < purchase price, the manager recoups the purchase price
    minus half the price drop, rounded down to the nearest valid price
    tick, but selling price never exceeds purchase price".  Prices are
    integers, one tick is 1, and [/] on [Z] rounds down. *)
Definition calculate_selling_price (purchase_price now_cost : Z) : Z :=
  if bool_decide (purchase_price ≤ now_cost) then now_cost
  else Z.min purchase_price
         ((2 * purchase_price - (purchase_price - now_cost)) / 2).

(** Modelled from the spec: [get_selling_prices] is missing; it "applies
    this per player to produce a mapping for an entire squad". *)
Definition get_selling_prices (squad : gset Z) (purchase_prices now_costs : gmap Z Z)
    : result (gmap Z Z) :=
  prices ← mapM (λ player,
              purchase_price ← getitem purchase_prices player;
              now_cost ← getitem now_costs player;
              mret (player, calculate_selling_price purchase_price now_cost))
            (elements squad);
  mret (list_to_map prices).

(** Modelled from the spec: [calculate_budget] is missing; "new_budget =
    old_budget + Σ(selling price of departing players) − Σ(market price
    of arriving players)". *)
Definition calculate_budget (old_squad new_squad : gset Z) (budget : Z)
    (selling_prices now_costs : gmap Z Z) : result Z :=
  sold ← mapM (getitem selling_prices) (elements (old_squad ∖ new_squad));
  bought ← mapM (getitem now_costs) (elements (new_squad ∖ old_squad));
  mret (budget + sum_Z sold - sum_Z bought).

(** Modelled from the spec: [update_purchase_prices] is missing;
    "purchase price for a continuing player is unchanged; for a newly
    acquired player it is set to current market price". *)
Definition update_purchase_prices (new_squad : gset Z)
    (purchase_prices now_costs : gmap Z Z) : result (gmap Z Z) :=
  prices ← mapM (λ player,
              match purchase_prices !! player with
              | Some price => mret (player, price)
              | None => now_cost ← getitem now_costs player; mret (player, now_cost)
              end)
            (elements new_squad);
  mret (list_to_map prices).

(** Modelled from the spec: [calculate_team_value] is missing;
    "new_team_value = Σ selling_prices(new_squad) + new_budget". *)
Definition calculate_team_value (squad : gset Z) (selling_prices : gmap Z Z)
    (budget : Z) : result Z :=
  values ← mapM (getitem selling_prices) (elements squad);
  mret (sum_Z values + budget).

(** Modelled from the spec: [calculate_points] is missing;
    "gameweek_points = Σ_{p in effective starting_xi} points(p) +
    points(effective_captain)"; with no effective captain nothing is
    added. *)
Definition calculate_points (roles : Roles) (total_points : Z → Z) : result Z :=
  Ok (sum_Z (total_points <$> starting_xi roles)
      + from_option total_points 0 (captain roles)).

(** *** The substitution resolver (section 4.3 of the specification) *)

Inductive slot : Type := SlotGkp | SlotOut1 | SlotOut2 | SlotOut3.

Definition reserve_at (roles : Roles) (s : slot) : Z :=
  match s with
  | SlotGkp => reserve_gkp roles
  | SlotOut1 => reserve_out_1 roles
  | SlotOut2 => reserve_out_2 roles
  | SlotOut3 => reserve_out_3 roles
  end.

(** The starter [player] and the reserve of slot [s] change places. *)
Definition swap (roles : Roles) (player : Z) (s : slot) : Roles :=
  let reserve := reserve_at roles s in
  {| starting_xi :=
       (λ p, if bool_decide (p = player) then reserve else p) <$> starting_xi roles;
     reserve_gkp := if s is SlotGkp then player else reserve_gkp roles;
     reserve_out_1 := if s is SlotOut1 then player else reserve_out_1 roles;
     reserve_out_2 := if s is SlotOut2 then player else reserve_out_2 roles;
     reserve_out_3 := if s is SlotOut3 then player else reserve_out_3 roles;
     captain := captain roles;
     vice_captain := vice_captain roles |}.

(** "At least 1 goalkeeper, at least 3 defenders, at least 1 forward";
    manager-role players count toward none of them. *)
Definition formation_valid (element_types : gmap Z Z) (xi : list Z) : result bool :=
  types ← mapM (getitem element_types) xi;
  let count t := length (filter (λ x, x = t) types) in
  mret (bool_decide (1 ≤ count GKP)%nat && bool_decide (3 ≤ count DEF)%nat
        && bool_decide (1 ≤ count FWD)%nat).

(** The candidate reserves are tried in order for one non-playing
    starter; a reserve with zero minutes, or one whose entry would break
    the formation, is skipped. *)
Fixpoint try_reserves (minutes element_types : gmap Z Z) (roles : Roles)
    (player : Z) (slots : list slot) : result Roles :=
  match slots with
  | [] => Ok roles
  | s :: slots' =>
      played ← getitem minutes (reserve_at roles s);
      if bool_decide (played = 0)
      then try_reserves minutes element_types roles player slots'
      else
        let roles' := swap roles player s in
        valid ← formation_valid element_types (starting_xi roles');
        if valid : bool then Ok roles'
        else try_reserves minutes element_types roles player slots'
  end.

Fixpoint substitute_all (minutes element_types : gmap Z Z) (slots : list slot)
    (roles : Roles) (players : list Z) : result Roles :=
  match players with
  | [] => Ok roles
  | player :: players' =>
      roles' ← try_reserves minutes element_types roles player slots;
      substitute_all minutes element_types slots roles' players'
  end.

Definition did_not_play (minutes : gmap Z Z) (player : option Z) : result bool :=
  match player with
  | Some p => played ← getitem minutes p; mret (bool_decide (played = 0))
  | None => Raise (KeyError None)
  end.

(** Modelled from the spec: [make_automatic_substitutions] is missing.
    The starters with zero minutes are found in the order of the nominal
    list; the reserve goalkeeper is offered to the goalkeepers among
    them, then the three outfield reserves, in their listed order, to the
    others; then the captaincy falls back to the vice-captain, or to
    nobody. *)
Definition make_automatic_substitutions (roles : Roles)
    (minutes element_types : gmap Z Z) : result Roles :=
  played ← mapM (getitem minutes) (starting_xi roles);
  let non_players := (filter (λ pm, pm.2 = 0) (zip (starting_xi roles) played)).*1 in
  types ← mapM (getitem element_types) non_players;
  let keepers := (filter (λ pt, pt.2 = GKP) (zip non_players types)).*1 in
  let outfield := (filter (λ pt, pt.2 ≠ GKP) (zip non_players types)).*1 in
  roles ← substitute_all minutes element_types [SlotGkp] roles keepers;
  roles ← substitute_all minutes element_types [SlotOut1; SlotOut2; SlotOut3]
            roles outfield;
  captain_out ← did_not_play minutes (captain roles);
  if captain_out : bool then
    vice_out ← did_not_play minutes (vice_captain roles);
    mret {| starting_xi := starting_xi roles; reserve_gkp := reserve_gkp roles;
            reserve_out_1 := reserve_out_1 roles; reserve_out_2 := reserve_out_2 roles;
            reserve_out_3 := reserve_out_3 roles;
            captain := if vice_out : bool then None else vice_captain roles;
            vice_captain := None |}
  else mret roles.

End SpecUtils.
End SpecUtils.

(** The helpers of the specification, as the collaborator of [update]. *)
Definition spec_utils {R : Rules} : Utils :=
  {| calculate_budget := SpecUtils.calculate_budget;
     calculate_points := SpecUtils.calculate_points;
     calculate_team_value := SpecUtils.calculate_team_value;
     calculate_transfer_cost := SpecUtils.calculate_transfer_cost;
     count_transfers := SpecUtils.count_transfers;
     get_selling_prices := SpecUtils.get_selling_prices;
     make_automatic_substitutions := SpecUtils.make_automatic_substitutions;
     update_free_transfers := SpecUtils.update_free_transfers;
     update_purchase_prices := SpecUtils.update_purchase_prices |}.

(** ** What one call of [update] computes and commits *)

(** The local variables of [update] once line 141 is reached. *)
Record Locals : Type := {
  element_types_of : gmap Z Z;
  now_costs_of : gmap Z Z;
  web_names_of : gmap Z string;
  total_points_of : Z → Z;
  substituted_roles_of : Roles;
  gameweek_points_of : Z;
  new_squad_of : gset Z;
  transfers_made_of : Z;
  transfer_cost_of : Z;
  old_selling_prices_of : gmap Z Z;
  new_budget_of : Z;
  new_purchase_prices_of : gmap Z Z;
  new_selling_prices_of : gmap Z Z;
  new_team_value_of : Z;
  new_free_transfers_of : Z;
}.

Section Transition.
Context {R : Rules} {D : FplCache} {U : Utils}.

(** Lines 99 to 141 read [self] and assign to locals only.  [locals]
    runs them on their own, with the snapshot fetched once. *)
Definition locals (self : Simulator) (roles : Roles) (wildcard_gameweeks : list Z)
    : result Locals :=
  let gameweek_results :=
    filter (λ r, res_round r = next_gameweek self) (results self) in
  let minutes := get_mapper gameweek_results res_element res_minutes in
  let total_points :=
    defaultdict (get_mapper gameweek_results res_element res_total_points) in
  snapshot ← load_static_elements (season self) (next_gameweek self);
  let element_types := get_mapper snapshot el_id el_element_type in
  let now_costs := get_mapper snapshot el_id el_now_cost in
  let web_names := get_mapper snapshot el_id el_web_name in
  substituted_roles ← make_automatic_substitutions roles minutes element_types;
  gameweek_points ← calculate_points substituted_roles total_points;
  let new_squad := squad_of_roles roles in
  transfers_made ← count_transfers (squad self) new_squad;
  transfer_cost ← calculate_transfer_cost (free_transfers self) transfers_made
                    (next_gameweek self) wildcard_gameweeks;
  old_selling_prices ← get_selling_prices (squad self) (purchase_prices self) now_costs;
  new_budget ← calculate_budget (squad self) new_squad (budget self)
                 old_selling_prices now_costs;
  new_purchase_prices ← update_purchase_prices new_squad (purchase_prices self) now_costs;
  new_selling_prices ← get_selling_prices new_squad new_purchase_prices now_costs;
  new_team_value ← calculate_team_value new_squad new_selling_prices new_budget;
  new_free_transfers ← update_free_transfers (free_transfers self) transfers_made
                         (next_gameweek self) wildcard_gameweeks;
  mret {| element_types_of := element_types; now_costs_of := now_costs;
          web_names_of := web_names; total_points_of := total_points;
          substituted_roles_of := substituted_roles;
          gameweek_points_of := gameweek_points; new_squad_of := new_squad;
          transfers_made_of := transfers_made; transfer_cost_of := transfer_cost;
          old_selling_prices_of := old_selling_prices; new_budget_of := new_budget;
          new_purchase_prices_of := new_purchase_prices;
          new_selling_prices_of := new_selling_prices;
          new_team_value_of := new_team_value;
          new_free_transfers_of := new_free_transfers |}.

(** Line 144. *)
Definition tally (l : Locals) (self : Simulator) : Simulator :=
  set_season_points (season_points self + (gameweek_points_of l - transfer_cost_of l)) self.

(** Lines 146 to 163, when [log] is set. *)
Definition report (l : Locals) (self : Simulator) (roles : Roles) : result Summary :=
  print_gameweek_summary (next_gameweek self) (gameweek_points_of l) roles
    (substituted_roles_of l) (squad self) (new_squad_of l) (new_budget_of l)
    (new_team_value_of l) (transfer_cost_of l) (free_transfers self)
    (element_types_of l) (web_names_of l) (total_points_of l) (now_costs_of l)
    (old_selling_prices_of l).

(** The round after round [gameweek] of [season]: the cancelled round 7
    of 2022-23 is skipped. *)
Definition following_gameweek (season : string) (gameweek : Z) : Z :=
  if bool_decide (season = "2022-23") && bool_decide (gameweek + 1 = 7)
  then 8 else gameweek + 1.

(** Lines 166 to 176. *)
Definition advance (l : Locals) (self : Simulator) : Simulator :=
  set_next_gameweek (following_gameweek (season self) (next_gameweek self))
    (set_free_transfers (new_free_transfers_of l)
       (set_purchase_prices (new_purchase_prices_of l)
          (set_budget (new_budget_of l)
             (set_squad (new_squad_of l) self)))).

End Transition.

(** ** The reachable season states *)

(** A season run: [__init__] leaves round 1, no points and no free
    transfer, whatever squad was drawn; every later state is left behind by
    a call of [update], whether it returned or raised. *)
Definition initial (self : Simulator) : Prop :=
  first_gameweek self = 1 ∧ last_gameweek self = 38 ∧ next_gameweek self = 1
  ∧ season_points self = 0 ∧ free_transfers self = 0.

(** One call of [update] in a run: the state it found, how it ended, the
    state it left. *)
Record Call : Type := {
  before : Simulator;
  outcome : result unit;
  after : Simulator;
}.

Inductive season_run {R : Rules} {D : FplCache} {U : Utils}
    : Simulator → list Call → Simulator → Prop :=
  | run_start self :
      season_run self [] self
  | run_update start calls self roles wildcard_gameweeks log outcome self' :
      season_run start calls self →
      update roles wildcard_gameweeks log self = (outcome, self') →
      season_run start
        (calls ++ [{| before := self; outcome := outcome; after := self' |}]) self'.

Definition reachable {R : Rules} {D : FplCache} {U : Utils} (self : Simulator) : Prop :=
  ∃ start calls, initial start ∧ season_run start calls self.

(** The call returned and did not leave the round that follows the one it
    found by one: the skip of the cancelled round fired. *)
Definition skipped (c : Call) : bool :=
  is_ok (outcome c) && bool_decide (next_gameweek (after c) ≠ next_gameweek (before c) + 1).

(** The role invariants of the specification (section 3). *)
Definition distinct_squad (roles : Roles) : Prop :=
  length (starting_xi roles) = 11%nat
  ∧ NoDup (starting_xi roles ++ [reserve_gkp roles; reserve_out_1 roles;
                                  reserve_out_2 roles; reserve_out_3 roles]).

Definition valid_roles (roles : Roles) : Prop :=
  distinct_squad roles
  ∧ (∃ c v, captain roles = Some c ∧ vice_captain roles = Some v
            ∧ c ∈ starting_xi roles ∧ v ∈ starting_xi roles ∧ c ≠ v).

(** ** A season to run the definitions on *)

(** Modelled from the spec: [game/rules.py] is not among the sources.  The
    positions are those the spec lists (goalkeeper, defender, midfielder,
    forward, manager role), under the names [simulator.py] imports and
    with the codes 1 to 5 in that order. *)
Definition fpl_rules : Rules :=
  {| GKP := 1; DEF := 2; MID := 3; FWD := 4; MNG := 5;
     ELEMENT_TYPES :=
       list_to_map [(1, "GKP"); (2, "DEF"); (3, "MID"); (4, "FWD"); (5, "MNG")] |}.

Definition player (id type cost : Z) (name : string) : Element :=
  {| el_id := id; el_element_type := type; el_now_cost := cost; el_web_name := name |}.

(** Nineteen players on the market: two goalkeepers, five defenders, five
    midfielders, three forwards, then a costly midfielder, a player whose
    position code the table of [fpl_rules] does not list, a defender and a
    forward. *)
Definition market : list Element :=
  [ player 1 1 70 "Keeper"; player 2 1 40 "Deputy";
    player 3 2 30 "Back3"; player 4 2 45 "Back4"; player 5 2 45 "Back5";
    player 6 2 50 "Back6"; player 7 2 40 "Back7";
    player 8 3 60 "Mid8"; player 9 3 65 "Mid9"; player 10 3 80 "Mid10";
    player 11 3 55 "Mid11"; player 12 3 45 "Mid12";
    player 13 4 75 "Striker13"; player 14 4 90 "Striker14"; player 15 4 45 "Striker15";
    player 16 3 130 "Star16"; player 17 6 45 "Newcomer17";
    player 18 2 40 "Back18"; player 19 4 60 "Striker19" ].

(** A provider with rounds 1 to 38 of every season, and rounds 39 to 47 of
    2019-20 besides. *)
Definition sample_cache : FplCache :=
  {| load_static_elements season gameweek :=
       if bool_decide (1 ≤ gameweek ≤ 38)
          || (bool_decide (season = "2019-20") && bool_decide (39 ≤ gameweek ≤ 47))
       then Ok market
       else Raise (DataUnavailable season gameweek) |}.

(** Every player plays 90 minutes and scores 2 points in every round. *)
Definition sample_results : list ResultRow :=
  gameweek ← seqZ 1 47;
  element ← seqZ 1 19;
  [ {| res_round := gameweek; res_element := element;
       res_minutes := 90; res_total_points := 2 |} ].

Definition drafted_squad : gset Z := list_to_set (seqZ 1 15).

(** The state after [__init__] of 2022-23: players 1 to 15, each bought
    at 50. *)
Definition season_start : Simulator :=
  {| season := "2022-23"; first_gameweek := 1; last_gameweek := 38;
     next_gameweek := 1; season_points := 0; results := sample_results;
     squad := drafted_squad; budget := 5;
     purchase_prices := gset_to_gmap 50 drafted_squad;
     free_transfers := 0 |}.

(** The same squad in 2019-20, with rounds 1 to 38 played. *)
Definition after_last_gameweek : Simulator :=
  {| season := "2019-20"; first_gameweek := 1; last_gameweek := 38;
     next_gameweek := 39; season_points := 912; results := sample_results;
     squad := drafted_squad; budget := 5;
     purchase_prices := gset_to_gmap 50 drafted_squad;
     free_transfers := 5 |}.

(** The drafted squad, all of it kept. *)
Definition kept_roles : Roles :=
  {| starting_xi := [1; 3; 4; 5; 6; 8; 9; 10; 11; 13; 14];
     reserve_gkp := 2; reserve_out_1 := 7; reserve_out_2 := 12; reserve_out_3 := 15;
     captain := Some 14; vice_captain := Some 10 |}.

(** Player 15 sold for player 16. *)
Definition costly_roles : Roles :=
  {| starting_xi := [1; 3; 4; 5; 6; 8; 9; 10; 11; 13; 14];
     reserve_gkp := 2; reserve_out_1 := 7; reserve_out_2 := 12; reserve_out_3 := 16;
     captain := Some 14; vice_captain := Some 10 |}.

(** Player 15 sold for player 17, who is put on the bench. *)
Definition newcomer_roles : Roles :=
  {| starting_xi := [1; 3; 4; 5; 6; 8; 9; 10; 11; 13; 14];
     reserve_gkp := 2; reserve_out_1 := 7; reserve_out_2 := 12; reserve_out_3 := 17;
     captain := Some 14; vice_captain := Some 10 |}.

(** Players 7, 12 and 15 sold for players 18, 16 and 19. *)
Definition three_in_roles : Roles :=
  {| starting_xi := [1; 3; 4; 5; 6; 8; 9; 10; 11; 13; 14];
     reserve_gkp := 2; reserve_out_1 := 18; reserve_out_2 := 16; reserve_out_3 := 19;
     captain := Some 14; vice_captain := Some 10 |}.

(** Ten starters only, the captain on the bench, a reserve named twice. *)
Definition invalid_roles : Roles :=
  {| starting_xi := [1; 3; 4; 5; 6; 8; 9; 10; 11; 13];
     reserve_gkp := 2; reserve_out_1 := 7; reserve_out_2 := 7; reserve_out_3 := 15;
     captain := Some 15; vice_captain := Some 10 |}.

(** [update] with the helpers of the specification on the sample season. *)
Definition run (roles : Roles) (wildcard_gameweeks : list Z) (log : bool)
    (self : Simulator) : result unit * Simulator :=
  update (R := fpl_rules) (D := sample_cache) (U := spec_utils (R := fpl_rules))
    roles wildcard_gameweeks log self.

(** The squad kept as it is for a number of rounds in a row. *)
Definition play (rounds : nat) (self : Simulator) : Simulator :=
  Nat.iter rounds (λ s, (run kept_roles [] false s).2) self.

(** ** [print_table] *)

(** A cell of a table: the rows of the report hold strings and an integer.
    A character of a Python string is a character of the string here. *)
Inductive item : Type :=
  | ItemStr (s : string)
  | ItemInt (n : Z).

(** [str(item)]. *)
Definition str (x : item) : string :=
  match x with
  | ItemStr s => s
  | ItemInt n => pretty n
  end.

(** [s.ljust(width)]. *)
Definition ljust (s : string) (width : nat) : string :=
  s +:+ String.concat "" (replicate (width - String.length s) " ").

(** [zip] of the unpacked rows, not strict: the columns, as many as the
    shortest row has cells. *)
Definition zip_star {A} (rows : list (list A)) : list (list A) :=
  match rows with
  | [] => []
  | row :: rows' =>
      (λ j, omap (λ r, r !! j) rows)
        <$> seq 0 (foldr (λ r, Nat.min (length r)) (length row) rows')
  end.

(** The lines [print_table] prints.  [headers] that are [None] or empty
    are not printed. *)
Definition print_table (data : list (list item)) (headers : option (list string))
    : list string :=
  match data with
  | [] => []
  | _ :: _ =>
      let headers := match headers with Some (h :: hs) => Some (h :: hs) | _ => None end in
      (* Calculate column widths *)
      let column_widths :=
        (λ col, max_list (String.length ∘ str <$> col))
          <$> zip_star (data ++ match headers with
                                | Some hs => [ItemStr <$> hs]
                                | None => []
                                end) in
      (* Print header *)
      match headers with
      | Some hs =>
          [ String.concat " " (zip_with ljust hs column_widths);
            String.concat ""
              (replicate (Z.to_nat (foldr Z.add 0
                                      ((Z.of_nat <$> column_widths)
                                       ++ [Z.of_nat (length hs) - 1])))
                 "-") ]
      | None => []
      end
      (* Print data rows *)
      ++ ((λ row, String.concat " " (zip_with (λ x width, ljust (str x) width)
                                       row column_widths)) <$> data)
  end.

(** The widths [print_table] computes for a list of rows. *)
Definition column_widths (rows : list (list item)) : list nat :=
  (λ col, max_list (String.length ∘ str <$> col)) <$> zip_star rows.

(** The cells of a row sit under the columns: the row has a cell for every
    column and none is longer than its column is wide. *)
Definition fits (lengths widths : list nat) : Prop :=
  (length widths ≤ length lengths)%nat
  ∧ ∀ j n w, lengths !! j = Some n → widths !! j = Some w → (n ≤ w)%nat.

(** The headers of the two tables of the report. *)
Definition table_headers : list string := [""; ""; "Position"; "Name"; "Points"].

(** The list [row] that [print_gameweek_summary] appends to [data]. *)
Definition row_items (r : Row) : list item :=
  [ItemStr (row_arrow r); ItemStr (row_armband r); ItemStr (row_position r);
   ItemStr (row_name r); ItemInt (row_points r)].

(** [print_table(data, headers)] on the rows of a table of the report. *)
Definition print_rows (rows : list Row) : list string :=
  print_table (row_items <$> rows) (Some table_headers).

(** ** The static players and managers *)

Section Static.
Context {R : Rules} {D : FplCache}.


Definition _get_static_players (season : string) (gameweek : Z)
    : result (list Element) :=
  snapshot ← load_static_elements season gameweek;
  mret (filter (λ e, el_element_type e ∈ [GKP; DEF; MID; FWD]) snapshot).

Definition _get_static_managers (season : string) (gameweek : Z)
    : result (list Element) :=
  snapshot ← load_static_elements season gameweek;
  mret (filter (λ e, el_element_type e = MNG) snapshot).

Definition static_players : M (list Element) :=
  self ← get_self;
  lift (_get_static_players (season self) (next_gameweek self)).

Definition static_managers : M (list Element) :=
  self ← get_self;
  lift (_get_static_managers (season self) (next_gameweek self)).

End Static.

(** ** Tables and reports to run the definitions on *)

(** Two rows of a table of the report. *)
Definition sample_table : list (list item) :=
  [ [ItemStr "->"; ItemStr "(C)"; ItemStr "DEF"; ItemStr "Back3"; ItemInt 12];
    [ItemStr "  "; ItemStr "   "; ItemStr "MID"; ItemStr "Mid10"; ItemInt (-2)] ].

(** The same with the first row cut after two cells. *)
Definition ragged_table : list (list item) :=
  [ [ItemStr "->"; ItemStr "(C)"];
    [ItemStr "  "; ItemStr "   "; ItemStr "MID"; ItemStr "Mid10"; ItemInt (-2)] ].

(** The report of round 1 of the sample season for a role assignment, all
    of whose players scored 2 points. *)
Definition sample_print (roles : Roles) : result Summary :=
  print_gameweek_summary (R := fpl_rules) 1 24 roles roles drafted_squad
    (squad_of_roles roles) 5 700 0 0
    (get_mapper market el_id el_element_type) (get_mapper market el_id el_web_name)
    (λ _, 2) (get_mapper market el_id el_now_cost) (gset_to_gmap 50 drafted_squad).

(** The calls of [play]: the squad kept, no report, each call returning. *)
Definition played (rounds : nat) (self : Simulator) : list Call :=
  (λ k, {| before := play k self; outcome := Ok tt; after := play (S k) self |})
    <$> seq 0 rounds.

(** * Properties *)

(** ** How a call of [update] ends *)

Ltac step_result :=
  match goal with
  | |- context [match ?r with Ok _ => _ | Raise _ => _ end] =>
      lazymatch r with
      | match _ with Ok _ => _ | Raise _ => _ end => fail
      | _ => destruct r eqn:?; [|try done]
      end
  end.

Section Update.
Context {R : Rules} {D : FplCache} {U : Utils}.
Implicit Types (self : Simulator) (roles : Roles) (l : Locals).

(** [update] runs lines 99 to 141 without touching [self], then adds the
    points, then prints if asked, then assigns the rest. *)
Lemma update_eq self roles wildcard_gameweeks log :
  update roles wildcard_gameweeks log self =
  match locals self roles wildcard_gameweeks with
  | Raise e => (Raise e, self)
  | Ok l =>
      if log then
        match report l (tally l self) roles with
        | Raise e => (Raise e, tally l self)
        | Ok _ => (Ok tt, advance l (tally l self))
        end
      else (Ok tt, advance l (tally l self))
  end.
Proof.
  unfold update, locals, selling_prices, static_elements, get_self, lift, modify.
  unfold mbind, mret, M_bind, M_ret, result_bind, result_ret.
  cbn.
  do 11 step_result.
  unfold report, advance, tally, following_gameweek; cbn.
  destruct log; cbn.
  - match goal with H : load_static_elements _ _ = Ok _ |- _ => rewrite H end.
    match goal with H : get_selling_prices (squad self) _ _ = Ok _ |- _ => rewrite H end.
    destruct (print_gameweek_summary _ _ _ _ _ _ _ _ _ _ _ _ _ _ _); [|done].
    by destruct (bool_decide _ && bool_decide _).
  - by destruct (bool_decide _ && bool_decide _).
Qed.

Lemma update_returns self roles wildcard_gameweeks log self' :
  update roles wildcard_gameweeks log self = (Ok tt, self') →
  ∃ l, locals self roles wildcard_gameweeks = Ok l
       ∧ self' = advance l (tally l self)
       ∧ (log = true → is_ok (report l (tally l self) roles) = true).
Proof.
  rewrite update_eq.
  destruct (locals _ _ _) as [l|]; [|done].
  destruct log.
  - destruct (report _ _ _) eqn:Hreport; [|done].
    intros [= <-]. exists l. by rewrite Hreport.
  - intros [= <-]. by exists l.
Qed.

Lemma update_raises self roles wildcard_gameweeks log e self' :
  update roles wildcard_gameweeks log self = (Raise e, self') →
  (locals self roles wildcard_gameweeks = Raise e ∧ self' = self)
  ∨ (log = true ∧ ∃ l, locals self roles wildcard_gameweeks = Ok l
                      ∧ report l (tally l self) roles = Raise e
                      ∧ self' = tally l self).
Proof.
  rewrite update_eq.
  destruct (locals _ _ _) as [l|]; [|intros [= <- <-]; by left].
  destruct log; [|done].
  destruct (report _ _ _) eqn:Hreport; [done|].
  intros [= <- <-]. right. split; [done|]. by exists l.
Qed.

(** When the report raises, the points of the round have been added and
    nothing else has been assigned. *)
Lemma update_report_raises self roles wildcard_gameweeks l e :
  locals self roles wildcard_gameweeks = Ok l →
  report l (tally l self) roles = Raise e →
  update roles wildcard_gameweeks true self = (Raise e, tally l self).
Proof. intros Hlocals Hreport. by rewrite update_eq, Hlocals, Hreport. Qed.

(** Without the report a call that raises has assigned nothing. *)
Lemma update_raises_silent self roles wildcard_gameweeks e self' :
  update roles wildcard_gameweeks false self = (Raise e, self') → self' = self.
Proof. intros [[_ ->]|[? _]]%update_raises; done. Qed.

Lemma locals_new_squad self roles wildcard_gameweeks l :
  locals self roles wildcard_gameweeks = Ok l → new_squad_of l = squad_of_roles roles.
Proof.
  unfold locals, mbind, mret, result_bind, result_ret.
  do 11 step_result. by intros [= <-].
Qed.

(** What a call leaves of the round pointer, however it ends. *)
Lemma update_next_gameweek self roles wildcard_gameweeks log outcome self' :
  update roles wildcard_gameweeks log self = (outcome, self') →
  season self' = season self
  ∧ next_gameweek self' =
      if is_ok outcome then following_gameweek (season self) (next_gameweek self)
      else next_gameweek self.
Proof.
  destruct outcome as [[]|e].
  - intros (l & _ & -> & _)%update_returns. done.
  - intros [[_ ->]|(_ & l & _ & _ & ->)]%update_raises; done.
Qed.

End Update.

(** ** Errors and the season state *)

(** C1. A call of [update] that raises should leave the season state as it
    found it.  With [log] set it does not: on the sample season, bringing
    in player 17, whose position code has no name in [ELEMENT_TYPES], makes
    the report raise [KeyError] after line 144 has added the 24 points of
    the round, so the call raises and [season_points] has changed, while
    the squad, the budget, the prices, the free transfers and the round
    pointer have not. *)
Theorem update_raise_keeps_tally :
  run newcomer_roles [] true season_start
  = (Raise (KeyError (Some 6)), set_season_points 24 season_start)
  ∧ season_points (set_season_points 24 season_start) ≠ season_points season_start.
Proof. split; [by vm_compute | done]. Qed.

(** C2, as the code has it.  [update] does not validate the role
    assignment: whatever it is, lines 99 to 141 hand it to the substitution
    resolver and the other helpers.  If one of them (or the data provider)
    raises, the call raises with the season state unchanged; if they all
    return, the call without report returns and commits the assignment as
    it is, the new squad being the set of the identifiers it names. *)
Theorem update_takes_roles_unchecked {R : Rules} {D : FplCache} {U : Utils}
    (self : Simulator) (roles : Roles) (wildcard_gameweeks : list Z) (log : bool) :
  (∀ e, locals self roles wildcard_gameweeks = Raise e →
        update roles wildcard_gameweeks log self = (Raise e, self))
  ∧ (∀ l, locals self roles wildcard_gameweeks = Ok l →
          update roles wildcard_gameweeks false self = (Ok tt, advance l (tally l self))
          ∧ squad (advance l (tally l self)) = squad_of_roles roles).
Proof.
  split.
  - intros e Hlocals. by rewrite update_eq, Hlocals.
  - intros l Hlocals. rewrite update_eq, Hlocals. split; [done|].
    by apply locals_new_squad in Hlocals.
Qed.

(** On the sample season: past round 38 the provider raises and nothing
    changes; [invalid_roles] is committed in round 1. *)
Lemma update_takes_roles_unchecked_witness :
  run kept_roles [] true (set_next_gameweek 39 season_start)
  = (Raise (DataUnavailable "2022-23" 39), set_next_gameweek 39 season_start)
  ∧ ∃ l, run invalid_roles [] false season_start
         = (Ok tt, advance l (tally l season_start))
         ∧ squad (advance l (tally l season_start)) = squad_of_roles invalid_roles.
Proof.
  split.
  - apply (proj1 (update_takes_roles_unchecked (R := fpl_rules) (D := sample_cache)
                    (U := spec_utils (R := fpl_rules))
                    (set_next_gameweek 39 season_start) kept_roles [] true)).
    vm_compute. reflexivity.
  - eexists.
    apply (proj2 (update_takes_roles_unchecked (R := fpl_rules) (D := sample_cache)
                    (U := spec_utils (R := fpl_rules))
                    season_start invalid_roles [] false)).
    vm_compute. reflexivity.
Defined.

(** C2, as stated, fails: the assignment [invalid_roles] has ten starters,
    names a reserve twice and has its captain on the bench, and [update]
    neither rejects it nor leaves the state alone: it returns, with a squad
    of thirteen committed and the round advanced. *)
Lemma invalid_roles_committed :
  ¬ valid_roles invalid_roles
  ∧ (run invalid_roles [] false season_start).1 = Ok tt
  ∧ size (squad (run invalid_roles [] false season_start).2) = 13%nat
  ∧ next_gameweek (run invalid_roles [] false season_start).2 = 2.
Proof.
  split; [|by vm_compute].
  intros [[Hlength _] _]. vm_compute in Hlength. discriminate.
Qed.

(** ** The squad *)

Lemma size_squad_of_roles (roles : Roles) :
  distinct_squad roles → size (squad_of_roles roles) = 15%nat.
Proof.
  intros [Hlength Hdistinct].
  replace (squad_of_roles roles) with
    (list_to_set (C := gset Z)
       (starting_xi roles ++ [reserve_gkp roles; reserve_out_1 roles;
                              reserve_out_2 roles; reserve_out_3 roles])).
  - rewrite size_list_to_set by done. rewrite length_app, Hlength. done.
  - unfold squad_of_roles. rewrite list_to_set_app_L. cbn.
    by rewrite (right_id_L ∅ (∪)), !(assoc_L (∪)).
Qed.

(** C5. For a role assignment of 11 distinct starters and 4 distinct
    reserves none of whom starts, the squad a returning call of [update]
    commits is the set of the starters and the four reserves, and it has
    exactly 15 members. *)
Theorem update_keeps_squad_size {R : Rules} {D : FplCache} {U : Utils}
    (self : Simulator) (roles : Roles) (wildcard_gameweeks : list Z) (log : bool)
    (self' : Simulator) :
  distinct_squad roles →
  update roles wildcard_gameweeks log self = (Ok tt, self') →
  squad self' = squad_of_roles roles ∧ size (squad self') = 15%nat.
Proof.
  intros Hroles (l & Hlocals & -> & _)%update_returns.
  apply locals_new_squad in Hlocals. cbn. rewrite Hlocals.
  split; [done|]. by apply size_squad_of_roles.
Qed.

(** On the sample season, with player 15 sold for player 16. *)
Lemma update_keeps_squad_size_witness :
  squad (run costly_roles [] true season_start).2 = squad_of_roles costly_roles
  ∧ size (squad (run costly_roles [] true season_start).2) = 15%nat.
Proof.
  apply (update_keeps_squad_size (R := fpl_rules) (D := sample_cache)
           (U := spec_utils (R := fpl_rules)) season_start costly_roles [] true).
  - split; [reflexivity|]. apply (bool_decide_unpack _). vm_compute. exact I.
  - vm_compute. reflexivity.
Defined.


(** ** The round pointer *)

Section Rounds.
Context {R : Rules} {D : FplCache} {U : Utils}.

Lemma skipped_call self outcome self' :
  next_gameweek self' =
    (if is_ok outcome then following_gameweek (season self) (next_gameweek self)
     else next_gameweek self) →
  skipped {| before := self; outcome := outcome; after := self' |}
  = is_ok outcome && bool_decide (season self = "2022-23")
    && bool_decide (next_gameweek self = 6).
Proof.
  intros Hnext. unfold skipped; cbn. rewrite Hnext.
  destruct outcome as [[]|e]; cbn; [|done].
  unfold following_gameweek.
  repeat case_bool_decide; cbn in *; try done; lia.
Qed.

(** What every run keeps true of the round pointer, and how many of its
    calls skipped a round. *)
Lemma season_run_rounds start calls self :
  initial start → season_run start calls self →
  season self = season start
  ∧ 1 ≤ next_gameweek self
  ∧ (season self = "2022-23" → next_gameweek self ≠ 7)
  ∧ length (filter (λ c, skipped c = true) calls) =
      if bool_decide (season start = "2022-23" ∧ 7 ≤ next_gameweek self)
      then 1%nat else 0%nat.
Proof.
  intros (_ & _ & Hfirst & _) Hrun.
  induction Hrun as [self|start calls self roles wcs log outcome self' _ IH Hcall].
  - rewrite Hfirst. repeat split; [lia|lia|].
    cbn. rewrite bool_decide_eq_false_2; [done|lia].
  - destruct (IH Hfirst) as (Hseason & Hlow & Hskip & Hcount). clear IH.
    apply update_next_gameweek in Hcall as [Hseason' Hnext].
    pose proof (skipped_call _ _ _ Hnext) as Hskipped.
    rewrite filter_app, length_app, Hcount. clear Hcount.
    rewrite Hseason', Hnext. rewrite <- Hseason. clear Hseason' Hseason.
    destruct (skipped _) eqn:Hthis.
    + rewrite filter_cons_True by done.
      symmetry in Hskipped.
      apply andb_true_iff in Hskipped as [[Hok Hs%bool_decide_eq_true]%andb_true_iff
                                          H6%bool_decide_eq_true].
      rewrite Hok. unfold following_gameweek. rewrite H6, Hs. cbn.
      repeat split; done.
    + rewrite filter_cons_False by (by rewrite Hthis).
      cbn. rewrite Nat.add_0_r.
      destruct outcome as [[]|e]; cbn in *; [|done].
      unfold following_gameweek.
      repeat case_bool_decide; cbn in *; try done; repeat split; try done; try lia.
      all: exfalso; intuition lia.
Qed.

End Rounds.

(** C6. A returning call of [update] adds exactly 1 to [next_gameweek]
    and then, in season 2022-23 only, turns a 7 into an 8; in every other
    season the pointer grows by exactly 1.  Hence no state of a 2022-23 run
    has [next_gameweek] equal to 7, and of the calls of a run that started
    at [__init__] exactly one skipped a round once round 7 is passed, and
    none before (nor in any other season). *)
Theorem skip_of_cancelled_round {R : Rules} {D : FplCache} {U : Utils} :
  (∀ self roles wildcard_gameweeks log self',
     update roles wildcard_gameweeks log self = (Ok tt, self') →
     next_gameweek self' =
       if bool_decide (season self = "2022-23" ∧ next_gameweek self + 1 = 7)
       then 8 else next_gameweek self + 1)
  ∧ (∀ self, reachable self → season self = "2022-23" → next_gameweek self ≠ 7)
  ∧ (∀ start calls self,
       initial start → season_run start calls self →
       length (filter (λ c, skipped c = true) calls) =
         if bool_decide (season start = "2022-23" ∧ 7 ≤ next_gameweek self)
         then 1%nat else 0%nat).
Proof.
  split; [|split].
  - intros self roles wcs log self' [_ ->]%update_next_gameweek. cbn.
    unfold following_gameweek. repeat case_bool_decide; cbn; try done; exfalso; intuition lia.
  - intros self (start & calls & Hinit & Hrun).
    by destruct (season_run_rounds _ _ _ Hinit Hrun) as (_ & _ & ? & _).
  - intros start calls self Hinit Hrun.
    by destruct (season_run_rounds _ _ _ Hinit Hrun) as (_ & _ & _ & ?).
Qed.

(** On the sample season: six rounds played from [__init__] of 2022-23
    leave the pointer at 8, the sixth call having skipped round 7. *)
Lemma skip_of_cancelled_round_witness :
  next_gameweek (play 6 season_start) = 8
  ∧ next_gameweek (play 6 season_start) ≠ 7
  ∧ ∃ calls, season_run (R := fpl_rules) (D := sample_cache)
               (U := spec_utils (R := fpl_rules)) season_start calls (play 6 season_start)
             ∧ length (filter (λ c, skipped c = true) calls) = 1%nat.
Proof.
  destruct (skip_of_cancelled_round (R := fpl_rules) (D := sample_cache)
              (U := spec_utils (R := fpl_rules))) as (Hstep & Hnever & Honce).
  assert (Hinit : initial season_start) by (by vm_compute).
  assert (Hrun : ∃ calls, season_run (R := fpl_rules) (D := sample_cache)
                            (U := spec_utils (R := fpl_rules))
                            season_start calls (play 6 season_start)).
  { eexists.
    eapply (run_update _ _ (play 5 season_start) kept_roles [] false);
      [|vm_compute; reflexivity].
    eapply (run_update _ _ (play 4 season_start) kept_roles [] false);
      [|vm_compute; reflexivity].
    eapply (run_update _ _ (play 3 season_start) kept_roles [] false);
      [|vm_compute; reflexivity].
    eapply (run_update _ _ (play 2 season_start) kept_roles [] false);
      [|vm_compute; reflexivity].
    eapply (run_update _ _ (play 1 season_start) kept_roles [] false);
      [|vm_compute; reflexivity].
    eapply (run_update _ _ season_start kept_roles [] false);
      [|vm_compute; reflexivity].
    apply run_start. }
  destruct Hrun as [calls Hrun].
  split; [|split].
  - rewrite (Hstep (play 5 season_start) kept_roles [] false (play 6 season_start))
      by (vm_compute; reflexivity).
    vm_compute. reflexivity.
  - apply Hnever; [|vm_compute; reflexivity]. by exists season_start, calls.
  - exists calls. split; [done|]. rewrite (Honce _ _ _ Hinit Hrun).
    vm_compute. reflexivity.
Defined.

(** [update] never reads [last_gameweek]: a call made with another value
    of it ends the same way and leaves the same state, that value apart. *)
Lemma update_ignores_last_gameweek {R : Rules} {D : FplCache} {U : Utils}
    (self : Simulator) (roles : Roles) (wildcard_gameweeks : list Z) (log : bool)
    (last : Z) :
  update roles wildcard_gameweeks log (set_last_gameweek last self)
  = ((update roles wildcard_gameweeks log self).1,
     set_last_gameweek last (update roles wildcard_gameweeks log self).2).
Proof.
  rewrite !update_eq.
  change (locals (set_last_gameweek last self) roles wildcard_gameweeks)
    with (locals self roles wildcard_gameweeks).
  destruct (locals self roles wildcard_gameweeks) as [l|e]; [|done].
  destruct log; [|done].
  change (report l (tally l (set_last_gameweek last self)) roles)
    with (report l (tally l self) roles).
  by destruct (report l (tally l self) roles).
Qed.

(** C8, as the code has it.  [update] has no guard of its own on the end
    of the season: it never compares [next_gameweek] with [last_gameweek],
    whose value has no influence on the call.  A call made when
    [next_gameweek] exceeds 38 is rejected, with the season state
    unchanged, when the data provider has no market snapshot for that
    round. *)
Theorem update_without_snapshot {R : Rules} {D : FplCache} {U : Utils}
    (self : Simulator) (roles : Roles) (wildcard_gameweeks : list Z) (log : bool) :
  (∀ e, 38 < next_gameweek self →
        load_static_elements (season self) (next_gameweek self) = Raise e →
        update roles wildcard_gameweeks log self = (Raise e, self))
  ∧ (∀ last,
       update roles wildcard_gameweeks log (set_last_gameweek last self)
       = ((update roles wildcard_gameweeks log self).1,
          set_last_gameweek last (update roles wildcard_gameweeks log self).2)).
Proof.
  split; [|intros; apply update_ignores_last_gameweek].
  intros e _ Hload. rewrite update_eq. unfold locals.
  rewrite Hload. done.
Qed.

(** On the sample season: no snapshot of round 39 of 2022-23. *)
Lemma update_without_snapshot_witness :
  run kept_roles [] false (set_next_gameweek 39 season_start)
  = (Raise (DataUnavailable "2022-23" 39), set_next_gameweek 39 season_start).
Proof.
  apply (proj1 (update_without_snapshot (R := fpl_rules) (D := sample_cache)
                  (U := spec_utils (R := fpl_rules))
                  (set_next_gameweek 39 season_start) kept_roles [] false)).
  - vm_compute. reflexivity.
  - vm_compute. reflexivity.
Defined.

(** C8, as stated, fails: in [after_last_gameweek] the pointer is at 39,
    past [last_gameweek]; the provider holds a snapshot of round 39 of
    that season, and [update] is not rejected: it returns and moves the
    pointer to 40. *)
Lemma update_after_last_gameweek :
  last_gameweek after_last_gameweek = 38
  ∧ next_gameweek after_last_gameweek = 39
  ∧ (run kept_roles [] false after_last_gameweek).1 = Ok tt
  ∧ next_gameweek (run kept_roles [] false after_last_gameweek).2 = 40
  ∧ season_points (run kept_roles [] false after_last_gameweek).2 = 936.
Proof. by vm_compute. Qed.

(** ** The report *)

(** C9, as the code has it.  The [log] flag can only add a failure.  A
    call with [log] set that returns leaves exactly the state the call
    without [log] leaves, which returns too; and a call without [log] that
    raises raises the same with [log] set, the state being the same. *)
Theorem log_only_adds_failure {R : Rules} {D : FplCache} {U : Utils}
    (self : Simulator) (roles : Roles) (wildcard_gameweeks : list Z) :
  (∀ self', update roles wildcard_gameweeks true self = (Ok tt, self') →
            update roles wildcard_gameweeks false self = (Ok tt, self'))
  ∧ (∀ e self', update roles wildcard_gameweeks false self = (Raise e, self') →
                update roles wildcard_gameweeks true self = (Raise e, self')).
Proof.
  rewrite !update_eq.
  destruct (locals _ _ _) as [l|e0]; [|done].
  split; [|done].
  intros self'. by destruct (report _ _ _).
Qed.

(** On the sample season: a transfer with and without the report, and a
    call that raises before the report. *)
Lemma log_only_adds_failure_witness :
  run costly_roles [] false season_start
  = (Ok tt, (run costly_roles [] true season_start).2)
  ∧ run kept_roles [] true (set_next_gameweek 39 season_start)
    = (Raise (DataUnavailable "2022-23" 39), set_next_gameweek 39 season_start).
Proof.
  split.
  - apply (proj1 (log_only_adds_failure (R := fpl_rules) (D := sample_cache)
                    (U := spec_utils (R := fpl_rules)) season_start costly_roles [])).
    vm_compute. reflexivity.
  - apply (proj2 (log_only_adds_failure (R := fpl_rules) (D := sample_cache)
                    (U := spec_utils (R := fpl_rules))
                    (set_next_gameweek 39 season_start) kept_roles [])).
    vm_compute. reflexivity.
Defined.

(** C9, as stated, fails: with player 17 brought in, the call without
    [log] returns and moves to round 2, while the call with [log] raises in
    the report and stays in round 1 with the points of the round added. *)
Lemma log_changes_state :
  (run newcomer_roles [] true season_start).2
  ≠ (run newcomer_roles [] false season_start).2
  ∧ next_gameweek (run newcomer_roles [] true season_start).2 = 1
  ∧ next_gameweek (run newcomer_roles [] false season_start).2 = 2.
Proof.
  split; [|by vm_compute].
  intros Heq. apply (f_equal next_gameweek) in Heq. vm_compute in Heq. discriminate.
Qed.

(** ** Loops over dictionaries *)

Lemma mapM_Ok {A B} (f : A → result B) (l : list A) (k : list B) :
  mapM f l = Ok k → Forall2 (λ x y, f x = Ok y) l k.
Proof.
  revert k. induction l as [|x l IH]; intros k.
  - intros [= <-]. constructor.
  - cbn. unfold mbind, mret, result_bind, result_ret.
    destruct (f x) as [y|] eqn:Hx; [|done].
    destruct (mapM f l) as [k'|]; [|done].
    intros [= <-]. constructor; [done|]. by apply IH.
Qed.


Lemma mapM_returns {A B} (f : A → result B) (l : list A) :
  (∀ x, x ∈ l → ∃ y, f x = Ok y) → ∃ k, mapM f l = Ok k.
Proof.
  induction l as [|x l IH]; intros Hl; [by exists []|].
  destruct (Hl x) as [y Hy]; [by left|].
  destruct IH as [k Hk]; [intros x' Hx'; apply Hl; by right|].
  exists (y :: k). cbn. unfold mbind, mret, result_bind, result_ret in *.
  by rewrite Hy, Hk.
Qed.

(** What lines 99 to 141 asked of the helpers, read off their results. *)
Section Calls.
Context {R : Rules} {D : FplCache} {U : Utils}.

Lemma locals_calls self roles wildcard_gameweeks l :
  locals self roles wildcard_gameweeks = Ok l →
  ∃ snapshot,
    load_static_elements (season self) (next_gameweek self) = Ok snapshot
    ∧ now_costs_of l = get_mapper snapshot el_id el_now_cost
    ∧ count_transfers (squad self) (squad_of_roles roles) = Ok (transfers_made_of l)
    ∧ calculate_transfer_cost (free_transfers self) (transfers_made_of l)
        (next_gameweek self) wildcard_gameweeks = Ok (transfer_cost_of l)
    ∧ get_selling_prices (squad self) (purchase_prices self) (now_costs_of l)
      = Ok (old_selling_prices_of l)
    ∧ calculate_budget (squad self) (squad_of_roles roles) (budget self)
        (old_selling_prices_of l) (now_costs_of l) = Ok (new_budget_of l)
    ∧ update_free_transfers (free_transfers self) (transfers_made_of l)
        (next_gameweek self) wildcard_gameweeks = Ok (new_free_transfers_of l).
Proof.
  unfold locals, mbind, mret, result_bind, result_ret.
  do 11 step_result. intros [= <-]. cbn. eexists. repeat split; done.
Qed.
End Calls.

(** ** The helpers of the specification *)

Section Spec.
Context {R : Rules} {D : FplCache}.
#[local] Existing Instance spec_utils.

Lemma exempt_spec (next_gameweek : Z) (wildcard_gameweeks : list Z) :
  SpecUtils.exempt next_gameweek wildcard_gameweeks
  = bool_decide (next_gameweek ∈ wildcard_gameweeks ∨ next_gameweek = 1).
Proof. unfold SpecUtils.exempt. repeat case_bool_decide; cbn; try done; exfalso; intuition. Qed.

Lemma locals_transfers self roles wildcard_gameweeks l :
  locals self roles wildcard_gameweeks = Ok l →
  transfers_made_of l = Z.of_nat (size (squad self ∖ squad_of_roles roles))
  ∧ transfer_cost_of l =
      (if bool_decide (next_gameweek self ∈ wildcard_gameweeks ∨ next_gameweek self = 1)
       then 0 else 4 * Z.max 0 (transfers_made_of l - free_transfers self))
  ∧ new_free_transfers_of l =
      (if bool_decide (next_gameweek self ∈ wildcard_gameweeks ∨ next_gameweek self = 1)
       then free_transfers self
       else Z.max 0 (Z.min 5 (free_transfers self - transfers_made_of l + 1))).
Proof.
  intros (snapshot & _ & _ & Hcount & Hcost & _ & _ & Hfree)%locals_calls.
  cbn in Hcount, Hcost, Hfree.
  unfold SpecUtils.count_transfers in Hcount.
  unfold SpecUtils.calculate_transfer_cost in Hcost.
  unfold SpecUtils.update_free_transfers, SpecUtils.clamp in Hfree.
  rewrite exempt_spec in Hcost, Hfree.
  injection Hcount as Hcount. rewrite <- Hcount in *. clear Hcount.
  revert Hcost Hfree.
  by destruct (bool_decide _); intros [= <-] [= <-].
Qed.




Lemma Forall2_fst_eq {A B} (l : list A) (k : list (A * B)) :
  Forall2 (λ x y, y.1 = x) l k → k.*1 = l.
Proof. induction 1 as [|x y l k Hy _ IH]; cbn; [done|]. by rewrite Hy, IH. Qed.

Lemma get_selling_prices_lookup (squad : gset Z) (purchase_prices now_costs prices : gmap Z Z)
    (p : Z) :
  SpecUtils.get_selling_prices squad purchase_prices now_costs = Ok prices →
  p ∈ squad →
  ∃ purchase market,
    purchase_prices !! p = Some purchase ∧ now_costs !! p = Some market
    ∧ prices !! p = Some (SpecUtils.calculate_selling_price purchase market).
Proof.
  unfold SpecUtils.get_selling_prices, mbind, mret, result_bind, result_ret.
  destruct (mapM _ _) as [k|] eqn:Hk; [|done].
  intros [= <-] Hp. apply mapM_Ok in Hk.
  assert (Hkeys : k.*1 = elements squad).
  { apply Forall2_fst_eq. eapply Forall2_impl; [done|].
    intros x y. unfold getitem.
    destruct (purchase_prices !! x), (now_costs !! x); intros [= <-]; done. }
  apply elem_of_elements, list_elem_of_lookup in Hp as [i Hi].
  destruct (Forall2_lookup_l _ _ _ _ _ Hk Hi) as (y & Hy & Hprice).
  unfold getitem in Hprice.
  destruct (purchase_prices !! p) as [purchase|]; [|done].
  destruct (now_costs !! p) as [market|]; [|done].
  injection Hprice as <-.
  exists purchase, market. repeat split.
  apply elem_of_list_to_map_1.
  - rewrite Hkeys. apply NoDup_elements.
  - by eapply list_elem_of_lookup_2.
Qed.

Lemma get_selling_prices_returns (squad : gset Z) (purchase_prices now_costs : gmap Z Z) :
  squad ⊆ dom purchase_prices → squad ⊆ dom now_costs →
  ∃ prices, SpecUtils.get_selling_prices squad purchase_prices now_costs = Ok prices.
Proof.
  intros Hpurchase Hmarket. unfold SpecUtils.get_selling_prices.
  destruct (mapM_returns
              (λ player,
                 purchase_price ← getitem purchase_prices player;
                 now_cost ← getitem now_costs player;
                 mret (player, SpecUtils.calculate_selling_price purchase_price now_cost))
              (elements squad)) as [k Hk].
  - intros p Hp%elem_of_elements.
    destruct (proj1 (elem_of_dom _ _) (Hpurchase p Hp)) as [purchase Hp1].
    destruct (proj1 (elem_of_dom _ _) (Hmarket p Hp)) as [market Hp2].
    eexists. unfold getitem, mbind, mret, result_bind, result_ret.
    by rewrite Hp1, Hp2.
  - eexists. unfold mbind, mret, result_bind, result_ret in *. by rewrite Hk.
Qed.





End Spec.

(** ** Transfers *)



(** C4. With the helpers of the specification, the transfer cost of a
    call of [update], which line 144 takes off the points of the round, is
    [4 × max(0, transfers_made − free_transfers)] on a round that is
    neither a wildcard round nor round 1, and 0 otherwise.  With one free
    transfer and three transfers made on a round that is not exempt the
    cost is 8. *)
Theorem transfer_cost_charged {R : Rules} {D : FplCache} :
  (∀ self roles wildcard_gameweeks log self',
     update (U := spec_utils) roles wildcard_gameweeks log self = (Ok tt, self') →
     ∃ l, locals (U := spec_utils) self roles wildcard_gameweeks = Ok l
          ∧ season_points self'
            = season_points self + (gameweek_points_of l - transfer_cost_of l)
          ∧ transfer_cost_of l =
              if bool_decide (next_gameweek self ∈ wildcard_gameweeks
                              ∨ next_gameweek self = 1)
              then 0
              else 4 * Z.max 0 (Z.of_nat (size (squad self ∖ squad_of_roles roles))
                                - free_transfers self))
  ∧ (∀ next_gameweek wildcard_gameweeks,
       next_gameweek ∉ wildcard_gameweeks → next_gameweek ≠ 1 →
       calculate_transfer_cost (Utils := spec_utils) 1 3 next_gameweek wildcard_gameweeks
       = Ok 8).
Proof.
  split.
  - intros self roles wcs log self' (l & Hlocals & -> & _)%update_returns.
    exists l. split; [done|]. split; [done|].
    apply locals_transfers in Hlocals as (Hmade & Hcost & _).
    by rewrite Hcost, Hmade.
  - intros gw wcs Hwild Hfirst. cbn.
    unfold SpecUtils.calculate_transfer_cost. rewrite exempt_spec.
    rewrite bool_decide_eq_false_2; [done|]. by intros [?|?].
Qed.

(** On the sample season: one free transfer, three transfers made in
    round 3. *)
Lemma transfer_cost_charged_witness :
  free_transfers (play 2 season_start) = 1
  ∧ size (squad (play 2 season_start) ∖ squad_of_roles three_in_roles) = 3%nat
  ∧ (∃ l, locals (D := sample_cache) (U := spec_utils (R := fpl_rules))
            (play 2 season_start) three_in_roles [] = Ok l
          ∧ season_points (run three_in_roles [] true (play 2 season_start)).2
            = season_points (play 2 season_start)
              + (gameweek_points_of l - transfer_cost_of l)
          ∧ transfer_cost_of l = 8)
  ∧ calculate_transfer_cost (Utils := spec_utils (R := fpl_rules)) 1 3 2 [5; 9] = Ok 8.
Proof.
  destruct (transfer_cost_charged (R := fpl_rules) (D := sample_cache))
    as [Hcall Hscenario].
  split; [by vm_compute|]. split; [by vm_compute|]. split.
  - destruct (Hcall (play 2 season_start) three_in_roles [] true
                (run three_in_roles [] true (play 2 season_start)).2)
      as (l & Hlocals & Hpoints & Hcost); [vm_compute; reflexivity|].
    exists l. split; [done|]. split; [done|].
    rewrite Hcost. vm_compute. reflexivity.
  - apply Hscenario.
    + apply (bool_decide_unpack _). vm_compute. exact I.
    + lia.
Defined.

(** ** Prices and budget *)

(** C7. With the helpers of the specification, the [selling_prices]
    property gives every player of the squad a price: the market price of
    the round's snapshot when that is at least the purchase price, and
    otherwise the purchase price minus half of the drop, rounded down to a
    whole tick, which never exceeds the purchase price.  The property
    returns whenever the snapshot is there and lists every player of the
    squad, each of whom has a purchase price.  Bought at 50, a player sells
    at 70 when the market is at 70 and at 40 when it is at 30. *)
Theorem selling_price_rule {R : Rules} {D : FplCache} :
  (∀ self prices self' p,
     selling_prices (U := spec_utils) self = (Ok prices, self') →
     p ∈ squad self →
     ∃ snapshot purchase market price,
       load_static_elements (season self) (next_gameweek self) = Ok snapshot
       ∧ purchase_prices self !! p = Some purchase
       ∧ get_mapper snapshot el_id el_now_cost !! p = Some market
       ∧ prices !! p = Some price
       ∧ (purchase ≤ market → price = market)
       ∧ (market < purchase →
          2 * price ≤ 2 * purchase - (purchase - market) < 2 * price + 2
          ∧ price ≤ purchase))
  ∧ (∀ self snapshot,
       load_static_elements (season self) (next_gameweek self) = Ok snapshot →
       squad self ⊆ dom (purchase_prices self) →
       squad self ⊆ dom (get_mapper snapshot el_id el_now_cost) →
       ∃ prices, selling_prices (U := spec_utils) self = (Ok prices, self))
  ∧ SpecUtils.calculate_selling_price 50 70 = 70
  ∧ SpecUtils.calculate_selling_price 50 30 = 40.
Proof.
  split; [|split; [|done]].
  - intros self prices self' p Hprices Hp.
    unfold selling_prices, static_elements, get_self, lift in Hprices.
    unfold mbind, M_bind in Hprices. cbn in Hprices.
    destruct (load_static_elements _ _) as [snapshot|]; [|done].
    injection Hprices as Hprices _.
    destruct (get_selling_prices_lookup _ _ _ _ _ Hprices Hp)
      as (purchase & market & Hpurchase & Hmarket & Hprice).
    exists snapshot, purchase, market, (SpecUtils.calculate_selling_price purchase market).
    repeat split; try done; unfold SpecUtils.calculate_selling_price;
      case_bool_decide; try lia.
    + pose proof (Z.div_mod (2 * purchase - (purchase - market)) 2 ltac:(lia)).
      pose proof (Z.mod_pos_bound (2 * purchase - (purchase - market)) 2 ltac:(lia)).
      lia.
    + pose proof (Z.div_mod (2 * purchase - (purchase - market)) 2 ltac:(lia)).
      pose proof (Z.mod_pos_bound (2 * purchase - (purchase - market)) 2 ltac:(lia)).
      lia.
  - intros self snapshot Hload Hpurchase Hmarket.
    destruct (get_selling_prices_returns _ _ _ Hpurchase Hmarket) as [prices Hprices].
    exists prices.
    unfold selling_prices, static_elements, get_self, lift, mbind, M_bind. cbn.
    rewrite Hload. cbn. by rewrite Hprices.
Qed.

(** On the sample season: player 1 was bought at 50 and stands at 70,
    player 3 was bought at 50 and stands at 30. *)
Lemma selling_price_rule_witness :
  (∃ prices,
     selling_prices (D := sample_cache) (U := spec_utils (R := fpl_rules)) season_start
     = (Ok prices, season_start))
  ∧ (∃ prices,
       selling_prices (D := sample_cache) (U := spec_utils (R := fpl_rules)) season_start
       = (Ok prices, season_start)
       ∧ prices !! 1 = Some 70 ∧ prices !! 3 = Some 40)
  ∧ ∃ snapshot purchase market price,
      load_static_elements (FplCache := sample_cache) "2022-23" 1 = Ok snapshot
      ∧ purchase_prices season_start !! 3 = Some purchase
      ∧ get_mapper snapshot el_id el_now_cost !! 3 = Some market
      ∧ price = 40
      ∧ (purchase ≤ market → price = market)
      ∧ (market < purchase →
         2 * price ≤ 2 * purchase - (purchase - market) < 2 * price + 2
         ∧ price ≤ purchase).
Proof.
  destruct (selling_price_rule (R := fpl_rules) (D := sample_cache))
    as (Hrule & Hreturns & _).
  split.
  { apply (Hreturns season_start market).
    - vm_compute. reflexivity.
    - apply (bool_decide_unpack _). vm_compute. exact I.
    - apply (bool_decide_unpack _). vm_compute. exact I. }
  assert (Hprices : ∃ prices,
            selling_prices (D := sample_cache)
              (U := spec_utils (R := fpl_rules)) season_start
            = (Ok prices, season_start)
            ∧ prices !! 1 = Some 70 ∧ prices !! 3 = Some 40).
  { eexists. split; [vm_compute; reflexivity|]. by vm_compute. }
  split; [done|].
  destruct Hprices as (prices & Hprices & _ & Hthree).
  destruct (Hrule season_start prices season_start 3 Hprices)
    as (snapshot & purchase & market & price & Hload & Hpurchase & Hmarket & Hprice
        & Hrise & Hdrop).
  { apply (bool_decide_unpack _). vm_compute. exact I. }
  exists snapshot, purchase, market, price.
  repeat split; try done; try (by apply Hdrop).
  congruence.
Defined.



(** * More of [simulator.py] *)

(** ** The text of a table *)

Lemma string_length_app (s t : string) :
  String.length (s +:+ t) = (String.length s + String.length t)%nat.
Proof. induction s as [|c s IH]; simpl; [done|]. by f_equal. Qed.

Lemma string_length_repeat (c : string) (n : nat) :
  String.length (String.concat "" (replicate n c)) = (n * String.length c)%nat.
Proof.
  induction n as [|n IH]; [done|].
  destruct n as [|n]; [simpl; lia|].
  change (String.concat "" (replicate (S (S n)) c))
    with (c +:+ "" +:+ String.concat "" (replicate (S n) c)).
  rewrite !string_length_app, IH. simpl. lia.
Qed.

Lemma ljust_length (s : string) (width : nat) :
  String.length (ljust s width) = (String.length s `max` width)%nat.
Proof.
  unfold ljust. rewrite string_length_app, string_length_repeat. simpl. lia.
Qed.

Lemma string_length_join (l : list string) :
  String.length (String.concat " " l)
  = (sum_list (String.length <$> l) + (length l - 1))%nat.
Proof.
  induction l as [|s l IH]; [done|].
  destruct l as [|t l]; [simpl; lia|].
  change (String.concat " " (s :: t :: l))
    with (s +:+ " " +:+ String.concat " " (t :: l)).
  rewrite !string_length_app, IH. simpl. lia.
Qed.

Lemma fits_padded {A} (text : A → string) (row : list A) (widths : list nat) :
  fits (String.length ∘ text <$> row) widths →
  String.length <$> zip_with (λ x width, ljust (text x) width) row widths = widths.
Proof.
  revert row. induction widths as [|w widths IH]; intros row [Hlen Hfit].
  - by destruct row.
  - rewrite length_fmap in Hlen.
    destruct row as [|x row]; [simpl in Hlen; lia|].
    simpl. rewrite ljust_length. f_equal.
    + assert (String.length (text x) ≤ w)%nat by (by apply (Hfit 0%nat)). lia.
    + apply IH. split; [rewrite length_fmap; simpl in *; lia|].
      intros j n w' Hn Hw. by apply (Hfit (S j)).
Qed.

Lemma min_lengths_le {A} (m : nat) (rows : list (list A)) :
  (foldr (λ r, Nat.min (length r)) m rows ≤ m)%nat
  ∧ ∀ r, r ∈ rows → (foldr (λ r, Nat.min (length r)) m rows ≤ length r)%nat.
Proof.
  induction rows as [|r' rows [IH1 IH2]]; simpl.
  - split; [done|]. by intros r ?%elem_of_nil.
  - split; [lia|]. intros r [->|Hr]%elem_of_cons; [lia|].
    specialize (IH2 r Hr). lia.
Qed.

Lemma zip_star_spec {A} (row : list A) (rows : list (list A)) :
  let n := foldr (λ r, Nat.min (length r)) (length row) rows in
  length (zip_star (row :: rows)) = n
  ∧ (∀ r, r ∈ row :: rows → (n ≤ length r)%nat)
  ∧ ∀ j col r x, zip_star (row :: rows) !! j = Some col → r ∈ row :: rows →
                 r !! j = Some x → x ∈ col.
Proof.
  intros n. unfold zip_star. fold n. split; [by rewrite length_fmap, length_seq|].
  split.
  - intros r [->|Hr]%elem_of_cons.
    + apply (proj1 (min_lengths_le _ _)).
    + by apply (proj2 (min_lengths_le _ _)).
  - intros j col r x Hcol Hr Hx.
    rewrite list_lookup_fmap in Hcol.
    apply fmap_Some in Hcol as (j' & Hj & ->).
    apply lookup_seq in Hj as [-> _].
    apply list_elem_of_omap. by exists r.
Qed.

Lemma column_widths_fit (rows : list (list item)) (r : list item) :
  r ∈ rows → fits (String.length ∘ str <$> r) (column_widths rows).
Proof.
  destruct rows as [|row rows]; [by intros ?%elem_of_nil|].
  intros Hr. destruct (zip_star_spec row rows) as (Hlen & Hmin & Hcol).
  unfold column_widths. split.
  - rewrite !length_fmap, Hlen. by apply Hmin.
  - intros j n w Hn Hw.
    rewrite list_lookup_fmap in Hn. rewrite list_lookup_fmap in Hw.
    apply fmap_Some in Hn as (x & Hx & ->).
    apply fmap_Some in Hw as (col & Hj & ->).
    apply max_list_elem_of_le, list_elem_of_fmap.
    exists x. split; [done|]. by eapply Hcol.
Qed.

Lemma padded_line_length (rows : list (list item)) (r : list item) :
  r ∈ rows →
  String.length (String.concat " " (zip_with (λ x width, ljust (str x) width)
                                      r (column_widths rows)))
  = (sum_list (column_widths rows) + (length (column_widths rows) - 1))%nat.
Proof.
  intros Hr. rewrite string_length_join.
  pose proof (fits_padded str r _ (column_widths_fit _ _ Hr)) as Hpad.
  rewrite Hpad. f_equal. f_equal.
  apply (f_equal length) in Hpad. by rewrite length_fmap in Hpad.
Qed.

Lemma min_lengths_attained {A} (m : nat) (rows : list (list A)) :
  foldr (λ r, Nat.min (length r)) m rows = m
  ∨ ∃ r, r ∈ rows ∧ foldr (λ r, Nat.min (length r)) m rows = length r.
Proof.
  induction rows as [|r' rows IH]; simpl; [by left|].
  destruct (Nat.min_spec (length r') (foldr (λ r, Nat.min (length r)) m rows))
    as [[_ ->]|[_ ->]].
  - right. exists r'. split; [by left|done].
  - destruct IH as [IH|(r & Hr & IH)]; [by left|].
    right. exists r. split; [by right|done].
Qed.

(** The number of columns is the length of a shortest row. *)
Lemma column_widths_length (rows : list (list item)) (n : nat) :
  rows ≠ [] →
  length (column_widths rows) = n
  ↔ (∀ r, r ∈ rows → (n ≤ length r)%nat) ∧ ∃ r, r ∈ rows ∧ length r = n.
Proof.
  destruct rows as [|row rows]; [done|]. intros _.
  unfold column_widths. rewrite length_fmap.
  destruct (zip_star_spec row rows) as (-> & Hmin & _).
  pose proof (min_lengths_attained (length row) rows) as Hatt.
  set (m := foldr _ _ _) in *.
  assert (Hwit : ∃ r, r ∈ row :: rows ∧ length r = m).
  { destruct Hatt as [Hm|(r & Hr & Hm)].
    - exists row. split; [by left|done].
    - exists r. split; [by right|done]. }
  split.
  - intros <-. by split.
  - intros [Hle (r & Hr & <-)]. destruct Hwit as (r' & Hr' & <-).
    apply Nat.le_antisymm; [by apply Hmin|by apply Hle].
Qed.

Lemma sum_widths (widths : list nat) (c : Z) :
  foldr Z.add 0 ((Z.of_nat <$> widths) ++ [c]) = Z.of_nat (sum_list widths) + c.
Proof.
  rewrite foldr_app. simpl.
  induction widths as [|w widths IH]; [simpl; lia|].
  rewrite fmap_cons. cbn [foldr]. rewrite IH.
  change (sum_list (w :: widths)) with (w + sum_list widths)%nat. lia.
Qed.


Lemma zip_star_length {A} (rows : list (list A)) (n : nat) :
  rows ≠ [] →
  length (zip_star rows) = n
  ↔ (∀ r, r ∈ rows → (n ≤ length r)%nat) ∧ ∃ r, r ∈ rows ∧ length r = n.
Proof.
  destruct rows as [|row rows]; [done|]. intros _.
  destruct (zip_star_spec row rows) as (-> & Hmin & _).
  pose proof (min_lengths_attained (length row) rows) as Hatt.
  set (m := foldr _ _ _) in *.
  assert (Hwit : ∃ r, r ∈ row :: rows ∧ length r = m).
  { destruct Hatt as [Hm|(r & Hr & Hm)].
    - exists row. split; [by left|done].
    - exists r. split; [by right|done]. }
  split.
  - intros <-. by split.
  - intros [Hle (r & Hr & <-)]. destruct Hwit as (r' & Hr' & <-).
    apply Nat.le_antisymm; [by apply Hmin|by apply Hle].
Qed.

Lemma zip_star_columns {A} (rows : list (list A)) :
  zip_star rows = (λ j, omap (λ r, r !! j) rows) <$> seq 0 (length (zip_star rows)).
Proof.
  destruct rows as [|row rows]; [done|].
  unfold zip_star at 1. f_equal. f_equal.
  by destruct (zip_star_spec row rows) as (-> & _).
Qed.

Lemma omap_lookup_take {A} (j k : nat) (data : list (list A)) :
  (j < k)%nat →
  omap (λ r, r !! j) (take k <$> data) = omap (λ r, r !! j) data.
Proof.
  intros Hj. induction data as [|r data IH]; [done|].
  change (omap (λ r, r !! j) (take k <$> r :: data))
    with (match take k r !! j with
          | Some y => y :: omap (λ r, r !! j) (take k <$> data)
          | None => omap (λ r, r !! j) (take k <$> data)
          end).
  by rewrite lookup_take_lt, IH.
Qed.

(** Rows cut after [k] cells give the same columns, when some row has no
    more than [k] cells. *)
Lemma zip_star_take {A} (k : nat) (data extra : list (list A)) (r0 : list A) :
  r0 ∈ data → (length r0 ≤ k)%nat →
  zip_star ((take k <$> data) ++ extra) = zip_star (data ++ extra).
Proof.
  intros Hr0 Hk.
  assert (Hdata : data ++ extra ≠ []) by (destruct data; [by apply elem_of_nil in Hr0|done]).
  assert (Hdata' : (take k <$> data) ++ extra ≠ [])
    by (destruct data; [by apply elem_of_nil in Hr0|done]).
  set (n := length (zip_star (data ++ extra))).
  destruct (proj1 (zip_star_length (data ++ extra) n Hdata) eq_refl)
    as (Hle & r & Hr & Hlen).
  assert (Hnk : (n ≤ k)%nat).
  { etrans; [|exact Hk]. apply Hle, elem_of_app. by left. }
  assert (Hn' : length (zip_star ((take k <$> data) ++ extra)) = n).
  { apply zip_star_length; [done|]. split.
    - intros r' [(r1 & -> & Hr1)%list_elem_of_fmap|Hr']%elem_of_app.
      + rewrite length_take. specialize (Hle r1). rewrite elem_of_app in Hle.
        specialize (Hle (or_introl Hr1)). lia.
      + apply Hle, elem_of_app. by right.
    - apply elem_of_app in Hr as [Hr|Hr].
      + exists (take k r). split.
        * apply elem_of_app. left. apply list_elem_of_fmap. by exists r.
        * rewrite length_take. lia.
      + exists r. split; [|done]. apply elem_of_app. by right. }
  rewrite (zip_star_columns (_ ++ extra)), (zip_star_columns (data ++ extra)).
  rewrite Hn'. fold n. apply Forall_fmap_ext_1, Forall_forall.
  intros j [_ Hj]%elem_of_seq. simpl in Hj.
  rewrite !omap_app. f_equal. apply omap_lookup_take. lia.
Qed.


(** What [print_table] prints under headers: a header line, a rule and one
    line for each row, with their lengths. *)
Lemma print_table_layout (data : list (list item)) (hs : list string) :
  data ≠ [] → hs ≠ [] →
  ∃ header rule rows,
    print_table data (Some hs) = header :: rule :: rows
    ∧ length rows = length data
    ∧ Forall (λ line,
                String.length line
                = (sum_list (column_widths (data ++ [ItemStr <$> hs]))
                   + (length (column_widths (data ++ [ItemStr <$> hs])) - 1))%nat)
        (header :: rows)
    ∧ String.length rule
      = (sum_list (column_widths (data ++ [ItemStr <$> hs])) + (length hs - 1))%nat.
Proof.
  intros Hdata Hhs.
  destruct data as [|row data]; [done|]. destruct hs as [|h hs]; [done|].
  set (table := (row :: data) ++ [ItemStr <$> h :: hs]).
  eexists _, _, _. split; [reflexivity|].
  assert (Hheader : (ItemStr <$> h :: hs) ∈ table).
  { apply elem_of_app. right. by apply list_elem_of_singleton. }
  split; [by rewrite length_fmap|]. split.
  - constructor.
    + rewrite <- (padded_line_length table _ Hheader).
      by rewrite zip_with_fmap_l.
    + apply Forall_fmap, Forall_forall. intros r Hr.
      apply (padded_line_length table r). apply elem_of_app. by left.
  - rewrite string_length_repeat, sum_widths. simpl String.length.
    fold table. fold (column_widths table). cbn [length]. lia.
Qed.

(** [print_table] with headers lines the table up: the header line and
    the lines of the rows all have one length, whatever the rows; the rule
    under the header is never shorter, and it has that length exactly when
    no row has fewer cells than there are headers. *)
Theorem print_table_aligned (data : list (list item)) (hs : list string) :
  data ≠ [] → hs ≠ [] → Forall (λ r, r ≠ []) data →
  ∃ header rule rows L,
    print_table data (Some hs) = header :: rule :: rows
    ∧ length rows = length data
    ∧ String.length header = L
    ∧ Forall (λ line, String.length line = L) rows
    ∧ (L ≤ String.length rule)%nat
    ∧ (String.length rule = L ↔ Forall (λ r, (length hs ≤ length r)%nat) data).
Proof.
  intros Hdata Hhs Hcells.
  destruct (print_table_layout data hs Hdata Hhs)
    as (header & rule & rows & Hprint & Hrows & Hlines & Hrule).
  set (table := data ++ [ItemStr <$> hs]) in *.
  set (widths := column_widths table) in *.
  assert (Htable : table ≠ []) by (by destruct data).
  assert (Hheader : (ItemStr <$> hs) ∈ table).
  { apply elem_of_app. right. by apply list_elem_of_singleton. }
  exists header, rule, rows, (sum_list widths + (length widths - 1))%nat.
  apply Forall_cons in Hlines as [Hhead Hlines].
  assert (Hcols : (1 ≤ length widths ≤ length hs)%nat).
  { destruct (proj1 (column_widths_length table (length widths) Htable) eq_refl)
      as (Hle & r & Hr & Hlen).
    split.
    - rewrite <- Hlen. apply elem_of_app in Hr as [Hr|Hr%list_elem_of_singleton].
      + rewrite Forall_forall in Hcells. specialize (Hcells r Hr).
        destruct r; [done|simpl; lia].
      + subst r. rewrite length_fmap. destruct hs; [done|simpl; lia].
    - specialize (Hle _ Hheader). by rewrite length_fmap in Hle. }
  repeat (split; [done|]). rewrite Hrule.
  split; [lia|].
  rewrite Forall_forall. split.
  - intros Hlong r Hr. assert (length widths = length hs) as <- by lia.
    apply (proj1 (column_widths_length table (length widths) Htable) eq_refl).
    apply elem_of_app. by left.
  - intros Hlong.
    assert (length widths = length hs); [|lia].
    apply column_widths_length; [done|]. split.
    + intros r [Hr|Hr%list_elem_of_singleton]%elem_of_app; [by apply Hlong|].
      subst r. by rewrite length_fmap.
    + exists (ItemStr <$> hs). split; [done|]. by rewrite length_fmap.
Qed.

(** On the two sample tables: the five-column one is lined up, the ragged
    one is cut to two columns under a rule made for five. *)
Lemma print_table_aligned_witness :
  (∃ header rule rows L,
     print_table sample_table (Some table_headers) = header :: rule :: rows
     ∧ length rows = 2%nat
     ∧ String.length header = L
     ∧ Forall (λ line, String.length line = L) rows
     ∧ (L ≤ String.length rule)%nat
     ∧ (String.length rule = L
        ↔ Forall (λ r, (length table_headers ≤ length r)%nat) sample_table))
  ∧ print_table sample_table (Some table_headers)
    = [ "       Position Name  Points";
        "----------------------------";
        "-> (C) DEF      Back3 12    ";
        "       MID      Mid10 -2    " ]
  ∧ print_table ragged_table (Some table_headers)
    = [ "      "; "---------"; "-> (C)"; "      " ].
Proof.
  split; [|split; vm_compute; reflexivity].
  apply (print_table_aligned sample_table table_headers).
  - discriminate.
  - discriminate.
  - repeat constructor; discriminate.
Defined.

(** [print_table] never prints a cell that stands where some row has
    none: with every row cut down to the length of any one of them, it
    prints the same lines. *)
Theorem print_table_truncates (data : list (list item)) (headers : option (list string))
    (k : nat) (r0 : list item) :
  r0 ∈ data → (length r0 ≤ k)%nat →
  print_table (take k <$> data) headers = print_table data headers.
Proof.
  intros Hr0 Hk.
  destruct data as [|row data]; [done|].
  rewrite fmap_cons. unfold print_table.
  set (hd := match headers with Some (h :: hs) => Some (h :: hs) | _ => None end).
  set (extra := match hd with Some hs => [ItemStr <$> hs] | None => [] end).
  change (take k row :: (take k <$> data)) with (take k <$> row :: data).
  rewrite (zip_star_take k (row :: data) extra r0 Hr0 Hk).
  set (widths := _ <$> zip_star _).
  f_equal.
  rewrite <- list_fmap_compose.
  apply Forall_fmap_ext_1, Forall_forall. intros r Hr. simpl.
  f_equal. apply zip_with_take_l'.
  assert (length widths ≤ k)%nat; [|lia].
  unfold widths. rewrite length_fmap.
  destruct (proj1 (zip_star_length ((row :: data) ++ extra) _ ltac:(done)) eq_refl)
    as (Hle & _).
  etrans; [|exact Hk]. apply Hle, elem_of_app. by left.
Qed.

Lemma print_table_truncates_witness :
  print_table (take 2 <$> ragged_table) None = print_table ragged_table None
  ∧ print_table ragged_table None = [ "-> (C)"; "      " ].
Proof.
  split; [|vm_compute; reflexivity].
  apply (print_table_truncates ragged_table None 2
           [ItemStr "->"; ItemStr "(C)"]).
  - unfold ragged_table. constructor.
  - simpl. lia.
Defined.

(** The rows of a table of the report under its five headers. *)
Lemma print_rows_aligned (rows : list Row) :
  rows ≠ [] →
  ∃ L, length (print_rows rows) = (length rows + 2)%nat
       ∧ Forall (λ line, String.length line = L) (print_rows rows).
Proof.
  intros Hrows. unfold print_rows.
  destruct (print_table_layout (row_items <$> rows) table_headers)
    as (header & rule & lines & -> & Hlen & Hlines & Hrule);
    [by destruct rows|done|].
  set (table := (row_items <$> rows) ++ [ItemStr <$> table_headers]) in *.
  assert (Hwidths : length (column_widths table) = 5%nat).
  { apply column_widths_length; [by destruct rows|]. split.
    - intros r [(r' & -> & _)%list_elem_of_fmap|Hr%list_elem_of_singleton]%elem_of_app;
        [done|by subst r].
    - exists (ItemStr <$> table_headers). split; [|done].
      apply elem_of_app. right. by apply list_elem_of_singleton. }
  exists (sum_list (column_widths table) + (length (column_widths table) - 1))%nat.
  split; [simpl; rewrite Hlen, length_fmap; lia|].
  apply Forall_cons in Hlines as [Hhead Hlines].
  constructor; [done|]. constructor; [|done].
  rewrite Hrule, Hwidths. done.
Qed.

(** ** What the report holds *)


Lemma insert_by_key_perm (key : Z → Z) (x : Z) (l : list Z) :
  insert_by_key key x l ≡ₚ x :: l.
Proof.
  induction l as [|y l IH]; [done|]. simpl.
  case_bool_decide; [done|]. rewrite IH. apply Permutation_swap.
Qed.

Lemma sort_by_key_perm (key : Z → Z) (l : list Z) :
  foldr (insert_by_key key) [] l ≡ₚ l.
Proof.
  induction l as [|x l IH]; [done|]. simpl.
  by rewrite insert_by_key_perm, IH.
Qed.

Lemma insert_by_key_sorted (key : Z → Z) (x : Z) (l : list Z) :
  StronglySorted (λ p q, key p ≤ key q) l →
  StronglySorted (λ p q, key p ≤ key q) (insert_by_key key x l).
Proof.
  induction 1 as [|y l Hl IH Hy]; simpl.
  - repeat constructor.
  - case_bool_decide as Hxy.
    + constructor; [by constructor|].
      constructor; [done|]. eapply Forall_impl; [exact Hy|]. simpl. lia.
    + constructor; [done|].
      rewrite insert_by_key_perm. constructor; [lia|done].
Qed.

Lemma sort_by_key_sorted (key : Z → Z) (l : list Z) :
  StronglySorted (λ p q, key p ≤ key q) (foldr (insert_by_key key) [] l).
Proof.
  induction l as [|x l IH]; simpl; [constructor|]. by apply insert_by_key_sorted.
Qed.

Lemma sorted_by_get_Ok (l players : list Z) (d : gmap Z Z) :
  sorted_by_get l d = Ok players →
  players ≡ₚ l
  ∧ StronglySorted (λ p q, default 0 (d !! p) ≤ default 0 (d !! q)) players.
Proof.
  unfold sorted_by_get. destruct (_ && _); [done|]. intros [= <-].
  split; [apply sort_by_key_perm|apply sort_by_key_sorted].
Qed.


Section Report.
Context {R : Rules}.






Lemma starting_row_Ok selected_roles substituted_roles element_types web_names
    total_points (p : Z) (r : Row) :
  starting_row selected_roles substituted_roles element_types web_names total_points p
  = Ok r →
  web_names !! p = Some (row_name r)
  ∧ (∃ t, element_types !! p = Some t ∧ ELEMENT_TYPES !! t = Some (row_position r))
  ∧ row_points r = total_points p
  ∧ (row_arrow r = "->" ↔ p ∉ starting_xi selected_roles)
  ∧ (row_armband r = "(C)" ↔ captain substituted_roles = Some p).
Proof.
  unfold starting_row, getitem, mbind, mret, result_bind, result_ret.
  destruct (element_types !! p) as [t|]; [|done].
  destruct (ELEMENT_TYPES !! t) as [position|] eqn:Ht; [|done].
  destruct (web_names !! p) as [name|]; [|done].
  intros [= <-]. simpl. repeat split; eauto.
  - by case_bool_decide.
  - by case_bool_decide.
  - repeat case_bool_decide; first [done | congruence].
  - intros ->. by rewrite bool_decide_eq_true_2.
Qed.

Lemma reserve_row_Ok selected_roles element_types web_names total_points
    (p : Z) (r : Row) :
  reserve_row selected_roles element_types web_names total_points p = Ok r →
  web_names !! p = Some (row_name r)
  ∧ (∃ t, element_types !! p = Some t ∧ ELEMENT_TYPES !! t = Some (row_position r))
  ∧ row_points r = total_points p
  ∧ (row_arrow r = "<-" ↔ p ∈ starting_xi selected_roles)
  ∧ (row_armband r = "(*C)" ↔ captain selected_roles = Some p).
Proof.
  unfold reserve_row, getitem, mbind, mret, result_bind, result_ret.
  destruct (element_types !! p) as [t|]; [|done].
  destruct (ELEMENT_TYPES !! t) as [position|] eqn:Ht; [|done].
  destruct (web_names !! p) as [name|]; [|done].
  intros [= <-]. simpl. repeat split; eauto.
  - by case_bool_decide.
  - by case_bool_decide.
  - repeat case_bool_decide; first [done | congruence].
  - intros ->. by rewrite bool_decide_eq_true_2.
Qed.

(** A report that returns lists every effective starter once, in order of
    position code, and the four reserves in the order of the bench, each
    with their name, position and points; a starter brought on by a
    substitution has the arrow [->], a reserve who was in the nominal
    eleven the arrow [<-]. *)
Theorem report_tables gameweek gameweek_points selected_roles substituted_roles
    (initial_squad final_squad : gset Z) final_budget final_team_value transfer_cost
    free_transfers element_types web_names total_points now_costs selling_prices
    (s : Summary) :
  print_gameweek_summary gameweek gameweek_points selected_roles substituted_roles
    initial_squad final_squad final_budget final_team_value transfer_cost
    free_transfers element_types web_names total_points now_costs selling_prices
  = Ok s →
  (∃ players,
     players ≡ₚ starting_xi substituted_roles
     ∧ StronglySorted (λ p q, default 0 (element_types !! p)
                              ≤ default 0 (element_types !! q)) players
     ∧ Forall2 (λ p r,
                  web_names !! p = Some (row_name r)
                  ∧ (∃ t, element_types !! p = Some t
                          ∧ ELEMENT_TYPES !! t = Some (row_position r))
                  ∧ row_points r = total_points p
                  ∧ (row_arrow r = "->" ↔ p ∉ starting_xi selected_roles)
                  ∧ (row_armband r = "(C)" ↔ captain substituted_roles = Some p))
         players (sum_starting_xi s))
  ∧ Forall2 (λ p r,
               web_names !! p = Some (row_name r)
               ∧ (∃ t, element_types !! p = Some t
                       ∧ ELEMENT_TYPES !! t = Some (row_position r))
               ∧ row_points r = total_points p
               ∧ (row_arrow r = "<-" ↔ p ∈ starting_xi selected_roles)
               ∧ (row_armband r = "(*C)" ↔ captain selected_roles = Some p))
      [reserve_gkp substituted_roles; reserve_out_1 substituted_roles;
       reserve_out_2 substituted_roles; reserve_out_3 substituted_roles]
      (sum_reserves s).
Proof.
  unfold print_gameweek_summary, mbind, mret, result_bind, result_ret.
  destruct (sorted_by_get _ _) as [players|] eqn:Hsort; [|done].
  destruct (mapM _ players) as [starting|] eqn:Hstart; [|done].
  destruct (mapM _ [_; _; _; _]) as [reserves|] eqn:Hres; [|done].
  destruct (mapM (transfer_line web_names now_costs) _) as [bought|]; [|done].
  destruct (mapM (transfer_line web_names selling_prices) _) as [sold|]; [|done].
  intros [= <-]. simpl.
  apply sorted_by_get_Ok in Hsort as [Hperm Hsorted].
  split.
  - exists players. split; [done|]. split; [done|].
    eapply Forall2_impl; [by apply mapM_Ok|]. apply starting_row_Ok.
  - eapply Forall2_impl; [by apply mapM_Ok|]. apply reserve_row_Ok.
Qed.

Lemma size_difference_swap (X Y : gset Z) :
  size X = size Y → size (X ∖ Y) = size (Y ∖ X).
Proof.
  intros Hsize.
  pose proof (size_union_alt X Y) as HXY.
  pose proof (size_union_alt Y X) as HYX.
  rewrite (comm_L (∪) Y X) in HYX. lia.
Qed.

(** A report that returns has one line for each player of the new squad
    who was not in the old one and one for each player of the old squad who
    is not in the new one; as many of the one as of the other when the two
    squads have the same size, and none when they are the same squad. *)
Theorem report_transfers gameweek gameweek_points selected_roles substituted_roles
    (initial_squad final_squad : gset Z) final_budget final_team_value transfer_cost
    free_transfers element_types web_names total_points now_costs selling_prices
    (s : Summary) :
  print_gameweek_summary gameweek gameweek_points selected_roles substituted_roles
    initial_squad final_squad final_budget final_team_value transfer_cost
    free_transfers element_types web_names total_points now_costs selling_prices
  = Ok s →
  length (sum_bought s) = size (final_squad ∖ initial_squad)
  ∧ length (sum_sold s) = size (initial_squad ∖ final_squad)
  ∧ (size final_squad = size initial_squad →
     length (sum_bought s) = length (sum_sold s))
  ∧ (final_squad = initial_squad → sum_bought s = [] ∧ sum_sold s = []).
Proof.
  unfold print_gameweek_summary, mbind, mret, result_bind, result_ret.
  destruct (sorted_by_get _ _) as [players|]; [|done].
  destruct (mapM _ players) as [starting|]; [|done].
  destruct (mapM _ [_; _; _; _]) as [reserves|]; [|done].
  destruct (mapM (transfer_line web_names now_costs) _) as [bought|] eqn:Hbought;
    [|done].
  destruct (mapM (transfer_line web_names selling_prices) _) as [sold|] eqn:Hsold;
    [|done].
  intros [= <-]. simpl.
  apply mapM_Ok, Forall2_length in Hbought, Hsold.
  assert (Hb : length bought = size (final_squad ∖ initial_squad)) by done.
  assert (Hs : length sold = size (initial_squad ∖ final_squad)) by done.
  split; [done|]. split; [done|]. split.
  - intros Hsize. rewrite Hb, Hs. by apply size_difference_swap.
  - intros ->.
    rewrite difference_diag_L in *.
    rewrite size_empty in *. by destruct bought, sold.
Qed.
End Report.

(** The two tables of a report that returns: the reserves make six lines
    of one length; the starters two lines more than there are starters, of
    one length, or no line at all, not even the header, when there is no
    starter. *)
Theorem report_tables_aligned {R : Rules} gameweek gameweek_points selected_roles
    substituted_roles (initial_squad final_squad : gset Z) final_budget
    final_team_value transfer_cost free_transfers element_types web_names
    total_points now_costs selling_prices (s : Summary) :
  print_gameweek_summary gameweek gameweek_points selected_roles substituted_roles
    initial_squad final_squad final_budget final_team_value transfer_cost
    free_transfers element_types web_names total_points now_costs selling_prices
  = Ok s →
  (∃ L, length (print_rows (sum_reserves s)) = 6%nat
        ∧ Forall (λ line, String.length line = L) (print_rows (sum_reserves s)))
  ∧ (starting_xi substituted_roles = [] → print_rows (sum_starting_xi s) = [])
  ∧ (starting_xi substituted_roles ≠ [] →
     ∃ L, length (print_rows (sum_starting_xi s))
          = (length (starting_xi substituted_roles) + 2)%nat
          ∧ Forall (λ line, String.length line = L) (print_rows (sum_starting_xi s))).
Proof.
  unfold print_gameweek_summary, mbind, mret, result_bind, result_ret.
  destruct (sorted_by_get _ _) as [players|] eqn:Hsort; [|done].
  destruct (mapM _ players) as [starting|] eqn:Hstart; [|done].
  destruct (mapM _ [_; _; _; _]) as [reserves|] eqn:Hres; [|done].
  destruct (mapM (transfer_line web_names now_costs) _) as [bought|]; [|done].
  destruct (mapM (transfer_line web_names selling_prices) _) as [sold|]; [|done].
  intros [= <-]. simpl.
  apply sorted_by_get_Ok in Hsort as [Hperm _].
  apply mapM_Ok, Forall2_length in Hstart, Hres.
  rewrite Hperm in Hstart. simpl in Hres.
  split; [|split].
  - destruct (print_rows_aligned reserves) as (L & Hlen & Hlines);
      [by destruct reserves|].
    exists L. by rewrite Hlen, <- Hres.
  - intros Hnone. rewrite Hnone in Hstart. by destruct starting.
  - intros Hsome.
    destruct (print_rows_aligned starting) as (L & Hlen & Hlines).
    { destruct starting; [|done]. by destruct (starting_xi substituted_roles). }
    exists L. by rewrite Hlen, <- Hstart.
Qed.

(** ** The sample reports *)


Lemma report_tables_witness :
  ∃ s, sample_print costly_roles = Ok s
       ∧ length (sum_starting_xi s) = 11%nat ∧ length (sum_reserves s) = 4%nat.
Proof.
  eexists. split; [vm_compute; reflexivity|].
  match goal with
  | |- length (sum_starting_xi ?s) = _ ∧ _ =>
      destruct (report_tables (R := fpl_rules) 1 24 costly_roles costly_roles
                  drafted_squad (squad_of_roles costly_roles) 5 700 0 0
                  (get_mapper market el_id el_element_type)
                  (get_mapper market el_id el_web_name) (λ _, 2)
                  (get_mapper market el_id el_now_cost)
                  (gset_to_gmap 50 drafted_squad) s)
        as [(players & Hperm & _ & Hrows) Hres]; [vm_compute; reflexivity|]
  end.
  apply Forall2_length in Hrows, Hres. apply Permutation_length in Hperm.
  split; [rewrite <- Hrows, Hperm|rewrite <- Hres]; reflexivity.
Defined.

Lemma report_transfers_witness :
  ∃ s, sample_print costly_roles = Ok s
       ∧ length (sum_bought s) = length (sum_sold s).
Proof.
  eexists. split; [vm_compute; reflexivity|].
  match goal with
  | |- length (sum_bought ?s) = _ =>
      refine (proj1 (proj2 (proj2
                (report_transfers (R := fpl_rules) 1 24 costly_roles costly_roles
                   drafted_squad (squad_of_roles costly_roles) 5 700 0 0
                   (get_mapper market el_id el_element_type)
                   (get_mapper market el_id el_web_name) (λ _, 2)
                   (get_mapper market el_id el_now_cost)
                   (gset_to_gmap 50 drafted_squad) s _))) _);
        vm_compute; reflexivity
  end.
Defined.

Lemma report_tables_aligned_witness :
  ∃ s, sample_print costly_roles = Ok s
       ∧ length (print_rows (sum_reserves s)) = 6%nat
       ∧ length (print_rows (sum_starting_xi s)) = 13%nat.
Proof.
  eexists. split; [vm_compute; reflexivity|].
  match goal with
  | |- length (print_rows (sum_reserves ?s)) = _ ∧ _ =>
      destruct (report_tables_aligned (R := fpl_rules) 1 24 costly_roles costly_roles
                  drafted_squad (squad_of_roles costly_roles) 5 700 0 0
                  (get_mapper market el_id el_element_type)
                  (get_mapper market el_id el_web_name) (λ _, 2)
                  (get_mapper market el_id el_now_cost)
                  (gset_to_gmap 50 drafted_squad) s)
        as [(L & Hres & _) [_ Hstart]]; [vm_compute; reflexivity|]
  end.
  split; [exact Hres|].
  destruct Hstart as (L' & Hlen & _); [discriminate|exact Hlen].
Defined.

Lemma size_list_to_set_le (l : list Z) :
  (size (list_to_set (C := gset Z) l) ≤ length l)%nat
  ∧ (size (list_to_set (C := gset Z) l) = length l ↔ NoDup l).
Proof.
  induction l as [|x l [IHle IHiff]].
  - rewrite list_to_set_nil, size_empty. split; [done|]. split; [constructor|done].
  - rewrite list_to_set_cons, size_union_alt, size_singleton, NoDup_cons.
    cbn [length].
    destruct (decide (x ∈ l)) as [Hx|Hx].
    + assert (Hsub : {[x]} ⊆ list_to_set (C := gset Z) l).
      { apply singleton_subseteq_l. by apply elem_of_list_to_set. }
      rewrite (size_difference _ _ Hsub), size_singleton.
      assert (0 < size (list_to_set (C := gset Z) l))%nat.
      { apply subseteq_size in Hsub. rewrite size_singleton in Hsub. lia. }
      split; [lia|]. split; [lia|]. by intros [? _].
    + replace (list_to_set l ∖ {[x]}) with (list_to_set (C := gset Z) l).
      * split; [lia|]. split; [|intros [_ ?%IHiff]; lia].
        intros ?. split; [done|]. apply IHiff. lia.
      * apply set_eq. intros y. rewrite elem_of_difference, elem_of_singleton,
          elem_of_list_to_set. split; [|by intros [? _]].
        intros Hy. split; [done|]. by intros ->.
Qed.


(** ** What a run of calls leaves *)

Section Runs.
Context {R : Rules} {D : FplCache} {U : Utils}.

Lemma update_frame self roles wildcard_gameweeks log outcome self' :
  update roles wildcard_gameweeks log self = (outcome, self') →
  season self' = season self ∧ first_gameweek self' = first_gameweek self
  ∧ last_gameweek self' = last_gameweek self ∧ results self' = results self.
Proof.
  destruct outcome as [[]|e].
  - by intros (l & _ & -> & _)%update_returns.
  - by intros [[_ ->]|(_ & l & _ & _ & ->)]%update_raises.
Qed.

(** No call of [update], whether it returns or raises, assigns the season,
    the first or the last round, or the results: after any run of calls
    they are what they were at the start. *)
Theorem season_run_frame start calls self :
  season_run start calls self →
  season self = season start ∧ first_gameweek self = first_gameweek start
  ∧ last_gameweek self = last_gameweek start ∧ results self = results start.
Proof.
  induction 1 as [self|start calls self roles wcs log outcome self' _ IH Hcall];
    [done|].
  apply update_frame in Hcall. destruct IH as (? & ? & ? & ?).
  destruct Hcall as (-> & -> & -> & ->). done.
Qed.

(** After a run of calls started by [__init__] the round pointer is one
    more than the number of calls that returned, and one more again in
    2022-23 once six of them have; it passes the last round exactly when 38
    calls have returned, 37 in 2022-23.  Calls that raised do not count. *)
Theorem season_run_pointer start calls self :
  initial start → season_run start calls self →
  let returned := length (filter (λ c, is_ok (outcome c) = true) calls) in
  next_gameweek self
  = 1 + Z.of_nat returned
    + (if bool_decide (season start = "2022-23" ∧ (6 ≤ returned)%nat) then 1 else 0)
  ∧ (last_gameweek self < next_gameweek self
     ↔ ((if bool_decide (season start = "2022-23") then 37 else 38) ≤ returned)%nat).
Proof.
  intros Hinit Hrun. simpl.
  assert (Hkept :
    season self = season start ∧ last_gameweek self = last_gameweek start
    ∧ next_gameweek self
      = 1 + Z.of_nat (length (filter (λ c, is_ok (outcome c) = true) calls))
        + (if bool_decide (season start = "2022-23"
                           ∧ (6 ≤ length (filter (λ c, is_ok (outcome c) = true) calls))%nat)
           then 1 else 0)).
  { destruct Hinit as (_ & _ & Hfirst & _).
    induction Hrun as [self|start calls self roles wcs log outcome self' Hrun IH Hcall].
    - rewrite Hfirst. simpl. rewrite bool_decide_eq_false_2; [done|]. intros [_ ?]. lia.
    - destruct (IH Hfirst) as (Hseason & Hlast & Hpointer).
      destruct (update_frame _ _ _ _ _ _ Hcall) as (Hseason' & _ & Hlast' & _).
      apply update_next_gameweek in Hcall as [_ ->].
      split; [congruence|]. split; [congruence|].
      rewrite filter_app, length_app.
      destruct outcome as [[]|e].
      + rewrite filter_cons_True by done. cbn [is_ok length filter list_filter].
        unfold following_gameweek. rewrite Hseason, Hpointer.
        repeat case_bool_decide; simpl; try lia; exfalso; intuition lia.
      + rewrite filter_cons_False by done. cbn [is_ok length filter list_filter].
        by rewrite Nat.add_0_r. }
  destruct Hkept as (_ & Hlast & Hpointer).
  split; [done|]. rewrite Hlast, Hpointer.
  destruct Hinit as (_ & -> & _).
  set (returned := length _).
  destruct (decide (season start = "2022-23")) as [Hs|Hs].
  - rewrite (bool_decide_eq_true_2 _ Hs).
    destruct (decide (6 ≤ returned)%nat).
    + rewrite bool_decide_eq_true_2 by done. lia.
    + rewrite bool_decide_eq_false_2 by (intros [_ ?]; lia). lia.
  - rewrite (bool_decide_eq_false_2 _ Hs).
    rewrite bool_decide_eq_false_2 by (by intros [? _]). lia.
Qed.

(** A call of [update] that raises has left the squad, the budget, the
    purchase prices, the free transfers and the round pointer as they were.
    Without the report it has left the whole state; [season_points] has
    changed only if the report was asked for and is what raised, and then by
    the points of the round less the cost of its transfers. *)
Theorem update_raise_leaves self roles wildcard_gameweeks log e self' :
  update roles wildcard_gameweeks log self = (Raise e, self') →
  squad self' = squad self ∧ budget self' = budget self
  ∧ purchase_prices self' = purchase_prices self
  ∧ free_transfers self' = free_transfers self
  ∧ next_gameweek self' = next_gameweek self
  ∧ (log = false → self' = self)
  ∧ (self' ≠ self →
     log = true
     ∧ ∃ l, locals self roles wildcard_gameweeks = Ok l
            ∧ report l (tally l self) roles = Raise e
            ∧ season_points self'
              = season_points self + (gameweek_points_of l - transfer_cost_of l)).
Proof.
  intros [[_ ->]|(-> & l & Hlocals & Hreport & ->)]%update_raises.
  - by repeat split.
  - repeat split; try done. by exists l.
Qed.

Lemma locals_tally self roles wildcard_gameweeks (v : Z) :
  locals (set_season_points v self) roles wildcard_gameweeks
  = locals self roles wildcard_gameweeks.
Proof. reflexivity. Qed.

(** A call whose report raised, made again on the state it left, without
    the report: it returns, and the points of the round, less the cost of
    its transfers, have been added twice. *)
Theorem retry_counts_twice self roles wildcard_gameweeks l e :
  locals self roles wildcard_gameweeks = Ok l →
  report l (tally l self) roles = Raise e →
  update roles wildcard_gameweeks true self = (Raise e, tally l self)
  ∧ update roles wildcard_gameweeks false (tally l self)
    = (Ok tt, advance l (tally l (tally l self)))
  ∧ season_points (advance l (tally l (tally l self)))
    = season_points self + 2 * (gameweek_points_of l - transfer_cost_of l).
Proof.
  intros Hlocals Hreport. split; [by apply update_report_raises|].
  split.
  - rewrite update_eq. unfold tally at 1. rewrite locals_tally, Hlocals. done.
  - simpl. lia.
Qed.

Lemma set_season_points_eq (v w : Z) (self : Simulator) :
  v = w → set_season_points v self = set_season_points w self.
Proof. by intros ->. Qed.

Lemma advance_tally_season_points (l : Locals) (self : Simulator) (v : Z) :
  advance l (tally l (set_season_points v self))
  = set_season_points (v + (season_points (advance l (tally l self)) - season_points self))
      (advance l (tally l self)).
Proof.
  destruct self as [s0 f0 l0 n0 p0 r0 q0 b0 pp0 ft0].
  cbv [advance tally set_next_gameweek set_free_transfers set_purchase_prices
       set_budget set_squad set_season_points season first_gameweek last_gameweek
       next_gameweek season_points results squad budget purchase_prices
       free_transfers].
  f_equal. lia.
Qed.

Lemma tally_season_points (l : Locals) (self : Simulator) (v : Z) :
  tally l (set_season_points v self)
  = set_season_points (v + (season_points (tally l self) - season_points self))
      (tally l self).
Proof.
  destruct self as [s0 f0 l0 n0 p0 r0 q0 b0 pp0 ft0].
  cbv [advance tally set_next_gameweek set_free_transfers set_purchase_prices
       set_budget set_squad set_season_points season first_gameweek last_gameweek
       next_gameweek season_points results squad budget purchase_prices
       free_transfers].
  f_equal. lia.
Qed.

(** [update] reads [season_points] only to add to it: started with another
    total, a call ends the same way and leaves the same state, but for the
    total, which differs by as much as it did at the start. *)
Theorem update_ignores_season_points self roles wildcard_gameweeks log (v : Z) :
  update roles wildcard_gameweeks log (set_season_points v self)
  = ((update roles wildcard_gameweeks log self).1,
     set_season_points
       (v + (season_points (update roles wildcard_gameweeks log self).2
             - season_points self))
       (update roles wildcard_gameweeks log self).2).
Proof.
  rewrite !update_eq.
  change (locals (set_season_points v self) roles wildcard_gameweeks)
    with (locals self roles wildcard_gameweeks).
  destruct (locals self roles wildcard_gameweeks) as [l|e].
  - change (report l (tally l (set_season_points v self)) roles)
      with (report l (tally l self) roles).
    destruct log; [destruct (report l (tally l self) roles)|]; cbn [fst snd];
      f_equal; first [apply advance_tally_season_points | apply tally_season_points].
  - cbn [fst snd]. f_equal. apply set_season_points_eq. lia.
Qed.

(** A call that returns commits a squad of at most as many players as the
    assignment names, starters and four reserves; of exactly as many when
    no player is named twice, and only then. *)
Theorem committed_squad_size self roles wildcard_gameweeks log self' :
  update roles wildcard_gameweeks log self = (Ok tt, self') →
  (size (squad self') ≤ length (starting_xi roles) + 4)%nat
  ∧ (size (squad self') = (length (starting_xi roles) + 4)%nat
     ↔ NoDup (starting_xi roles ++ [reserve_gkp roles; reserve_out_1 roles;
                                     reserve_out_2 roles; reserve_out_3 roles])).
Proof.
  intros (l & Hlocals & -> & _)%update_returns.
  apply locals_new_squad in Hlocals. simpl. rewrite Hlocals.
  replace (squad_of_roles roles) with
    (list_to_set (C := gset Z)
       (starting_xi roles ++ [reserve_gkp roles; reserve_out_1 roles;
                              reserve_out_2 roles; reserve_out_3 roles])).
  - pose proof (size_list_to_set_le
                  (starting_xi roles ++ [reserve_gkp roles; reserve_out_1 roles;
                                         reserve_out_2 roles; reserve_out_3 roles]))
      as [Hle Hiff].
    rewrite length_app in Hle, Hiff. simpl in Hle, Hiff. done.
  - unfold squad_of_roles. rewrite list_to_set_app_L. cbn.
    by rewrite (right_id_L ∅ (∪)), !(assoc_L (∪)).
Qed.

End Runs.

(** ** Players and managers of the snapshot *)

Lemma filter_split_length {A} (P Q : A → Prop) `{!∀ x, Decision (P x)}
    `{!∀ x, Decision (Q x)} (l : list A) :
  (∀ x, P x → Q x → False) →
  (length (filter P l) + length (filter Q l) ≤ length l)%nat
  ∧ ((length (filter P l) + length (filter Q l))%nat = length l
     ↔ Forall (λ x, P x ∨ Q x) l).
Proof.
  intros Hdisjoint. induction l as [|x l [IHle IHiff]]; [by split|].
  rewrite !filter_cons, Forall_cons.
  destruct (decide (P x)) as [HP|HP], (decide (Q x)) as [HQ|HQ]; simpl.
  - by destruct (Hdisjoint x).
  - split; [lia|]. split; [intros ?; split; [by left|apply IHiff; lia]|].
    intros [_ ?%IHiff]. lia.
  - split; [lia|]. split; [intros ?; split; [by right|apply IHiff; lia]|].
    intros [_ ?%IHiff]. lia.
  - split; [lia|]. split; [lia|]. by intros [[?|?] _].
Qed.

(** The [static_players] and [static_managers] properties leave the state
    alone and return two parts of the snapshot of the round, rows in the
    order of the snapshot, that share no row when the manager code is not a
    player code; together they hold every row exactly when every row has
    one of the five codes: a row with another code is in neither. *)
Theorem static_players_and_managers {R : Rules} {D : FplCache} self snapshot :
  load_static_elements (season self) (next_gameweek self) = Ok snapshot →
  MNG ∉ [GKP; DEF; MID; FWD] →
  ∃ players managers,
    static_players self = (Ok players, self)
    ∧ static_managers self = (Ok managers, self)
    ∧ players `sublist_of` snapshot ∧ managers `sublist_of` snapshot
    ∧ (∀ e, e ∈ players → e ∉ managers)
    ∧ (length players + length managers ≤ length snapshot)%nat
    ∧ ((length players + length managers)%nat = length snapshot
       ↔ Forall (λ e, el_element_type e ∈ [GKP; DEF; MID; FWD; MNG]) snapshot).
Proof.
  unfold static_players, static_managers, _get_static_players, _get_static_managers,
    get_self, lift, mbind, mret, M_bind, result_bind, result_ret. simpl.
  intros -> Hmng. eexists _, _. split; [done|]. split; [done|].
  split; [apply sublist_filter|]. split; [apply sublist_filter|].
  split.
  { intros e [He _]%list_elem_of_filter [He' _]%list_elem_of_filter. congruence. }
  destruct (filter_split_length (λ e, el_element_type e ∈ [GKP; DEF; MID; FWD])
              (λ e, el_element_type e = MNG) snapshot) as [Hle Hiff].
  { intros e He He'. congruence. }
  split; [done|]. rewrite Hiff. apply Forall_iff. intros e.
  rewrite !elem_of_cons, elem_of_nil. tauto.
Qed.

(** ** The sample season, continued *)

Lemma played_run (rounds : nat) (self : Simulator) :
  (∀ k, (k < rounds)%nat → (run kept_roles [] false (play k self)).1 = Ok tt) →
  season_run (R := fpl_rules) (D := sample_cache) (U := spec_utils (R := fpl_rules))
    self (played rounds self) (play rounds self).
Proof.
  induction rounds as [|n IH]; intros Hreturns; [apply run_start|].
  unfold played. rewrite seq_S, fmap_app. simpl.
  eapply (run_update _ _ (play n self) kept_roles [] false).
  - apply IH. intros k Hk. apply Hreturns. lia.
  - specialize (Hreturns n (Nat.lt_succ_diag_r n)). unfold run in Hreturns.
    unfold run. destruct (update _ _ _ _) as [o s]. simpl in *. by subst.
Qed.

Lemma six_rounds_played :
  season_run (R := fpl_rules) (D := sample_cache) (U := spec_utils (R := fpl_rules))
    season_start (played 6 season_start) (play 6 season_start).
Proof.
  apply played_run. intros k Hk.
  do 6 (destruct k as [|k]; [vm_compute; reflexivity|]). lia.
Qed.

Lemma season_run_frame_witness :
  season (play 6 season_start) = season season_start
  ∧ first_gameweek (play 6 season_start) = first_gameweek season_start
  ∧ last_gameweek (play 6 season_start) = last_gameweek season_start
  ∧ results (play 6 season_start) = results season_start.
Proof.
  apply (season_run_frame (R := fpl_rules) (D := sample_cache)
           (U := spec_utils (R := fpl_rules))
           season_start (played 6 season_start) (play 6 season_start)).
  exact six_rounds_played.
Defined.

Lemma season_run_pointer_witness :
  next_gameweek (play 6 season_start) = 8.
Proof.
  refine (eq_trans (proj1 (season_run_pointer (R := fpl_rules) (D := sample_cache)
                             (U := spec_utils (R := fpl_rules))
                             season_start (played 6 season_start)
                             (play 6 season_start) _ six_rounds_played)) _).
  - vm_compute. repeat split.
  - vm_compute. reflexivity.
Defined.

Lemma update_raise_leaves_witness :
  squad (run newcomer_roles [] true season_start).2 = squad season_start
  ∧ budget (run newcomer_roles [] true season_start).2 = budget season_start
  ∧ next_gameweek (run newcomer_roles [] true season_start).2 = 1.
Proof.
  destruct (update_raise_leaves (R := fpl_rules) (D := sample_cache)
              (U := spec_utils (R := fpl_rules))
              season_start newcomer_roles [] true (KeyError (Some 6))
              (run newcomer_roles [] true season_start).2)
    as (Hsquad & Hbudget & _ & _ & Hnext & _); [vm_compute; reflexivity|].
  split; [exact Hsquad|]. split; [exact Hbudget|exact Hnext].
Defined.

Lemma retry_counts_twice_witness :
  ∃ l, locals (D := sample_cache) (U := spec_utils (R := fpl_rules))
         season_start newcomer_roles [] = Ok l
       ∧ run newcomer_roles [] false (tally l season_start)
         = (Ok tt, advance l (tally l (tally l season_start)))
       ∧ season_points (advance l (tally l (tally l season_start))) = 48.
Proof.
  eexists. split; [vm_compute; reflexivity|].
  match goal with
  | |- run _ _ _ (tally ?l _) = _ ∧ _ =>
      destruct (retry_counts_twice (R := fpl_rules) (D := sample_cache)
                  (U := spec_utils (R := fpl_rules))
                  season_start newcomer_roles [] l (KeyError (Some 6)))
        as (_ & Hagain & Hpoints); [vm_compute; reflexivity..|]
  end.
  split; [exact Hagain|].
  etrans; [exact Hpoints|]. vm_compute. reflexivity.
Defined.

Lemma committed_squad_size_witness :
  (size (squad (run invalid_roles [] false season_start).2)
   ≤ length (starting_xi invalid_roles) + 4)%nat
  ∧ ¬ NoDup (starting_xi invalid_roles ++ [2; 7; 7; 15]).
Proof.
  destruct (committed_squad_size (R := fpl_rules) (D := sample_cache)
              (U := spec_utils (R := fpl_rules))
              season_start invalid_roles [] false
              (run invalid_roles [] false season_start).2)
    as [Hle Hiff]; [vm_compute; reflexivity|].
  split; [exact Hle|].
  intros Hnodup. apply Hiff in Hnodup. vm_compute in Hnodup. discriminate.
Defined.

Lemma static_players_and_managers_witness :
  ∃ players managers,
    static_players (R := fpl_rules) (D := sample_cache) season_start
    = (Ok players, season_start)
    ∧ static_managers (R := fpl_rules) (D := sample_cache) season_start
      = (Ok managers, season_start)
    ∧ (length players + length managers < length market)%nat.
Proof.
  destruct (static_players_and_managers (R := fpl_rules) (D := sample_cache)
              season_start market)
    as (players & managers & Hplayers & Hmanagers & _ & _ & _ & Hle & Hiff).
  - vm_compute. reflexivity.
  - apply (bool_decide_unpack _). vm_compute. exact I.
  - exists players, managers. split; [exact Hplayers|]. split; [exact Hmanagers|].
    destruct (decide ((length players + length managers)%nat = length market))
      as [Hall|Hsome]; [|lia].
    exfalso. apply Hiff in Hall. revert Hall.
    apply (bool_decide_unpack _). vm_compute. exact I.
Defined.
